(** * angular-d3: zoom / brush synchronisation of the line chart

    A shallow embedding of the two [LineChartComponent] variants of the
    repository (the fixed-size one and the responsive one with the overview
    brush) together with the parts of d3 they call.

    Number model.  JavaScript numbers are embedded as exact rationals [Q]
    (no rounding, no NaN, no infinities); equality of numbers is [Qeq].
    A [Date] is embedded as its time value, an integral number of
    milliseconds ([Z]); constructing a [Date] from a number truncates the
    number towards zero, as [new Date(t)] does.  Where JavaScript would
    produce NaN or invalid dates (the time scale of an empty dataset, a
    zoom transform of factor 0) the embedding returns [None]; no other
    quotient below has a divisor that can be zero.

    The component itself computes in double precision, where every
    operation is rounded.  The properties stated of computed numbers are
    therefore kept to what rounding leaves intact: comparisons and the
    branches they select, equations that name the very expression the code
    evaluates, values that are exact in doubles (integers, the two ends of
    a scale), and estimates with an explicit slack (a pixel, a millisecond,
    a thousandth or a millionth of a pixel) over inputs of bounded
    magnitude, for which the rounding error of the expressions involved is
    far below the slack.  The bounds on magnitudes are not needed by the
    proofs, which are over [Q]; they delimit the inputs for which the
    estimate carries over to doubles.  The module [Binary64] repeats the
    arithmetic over the binary64 numbers of the kernel, and
    [Binary64Facts] evaluates it where the rounded results part from the
    exact ones.

    A computed signal is embedded as a function of the signals it reads,
    a method that writes signals as a function from state to state. *)

From Stdlib Require Import String.
From Stdlib Require Import ZArith QArith Qabs Qround Qminmax.
From Stdlib Require Import List Bool Lia Lqa Sorted.
From Stdlib Require Floats.
Import ListNotations.

Local Open Scope Q_scope.

(** ** Numbers *)

(** [a < b] on numbers, as a boolean. *)
Definition Qltb (a b : Q) : bool := negb (Qle_bool b a).

(** Truncation towards zero: the time value of [new Date(q)]. *)
Definition Qtrunc (q : Q) : Z :=
  if Qle_bool 0 q then Qfloor q else Qceiling q.

(** [Math.round]: the nearest integer, halves rounded up. *)
Definition Math_round (q : Q) : Z := Qfloor (q + (1 # 2)).

(** ** The shared data type (line-chart.ts) *)

(** [date] is the time value of [new Date(d.date)]. *)
Record LineChartDataItem : Type := mkItem { date : Z; value : Q }.

(** ** The parts of d3 the components call *)

Module D3.

(** *** d3-array *)

Section Extent.
Context {A N : Type} (ltb : N -> N -> bool).

(** One iteration of the loop of [extent]. *)
Definition extent_step (valueof : A -> N) (acc : option (N * N)) (d : A)
  : option (N * N) :=
  let v := valueof d in
  match acc with
  | None => Some (v, v)
  | Some (mn, mx) =>
      Some (if ltb v mn then v else mn, if ltb mx v then v else mx)
  end.

(** [d3.extent(values, valueof)]; [None] is [[undefined, undefined]]. *)
Definition extent (values : list A) (valueof : A -> N) : option (N * N) :=
  fold_left (extent_step valueof) values None.
End Extent.

Section Bisector.
Context {A : Type} (f : A -> Z).

(** The do-while loop of [bisector(f).left]; entered with [lo < hi]. *)
Fixpoint left_loop (fuel : nat) (a : list A) (x : Z) (lo hi : nat) : nat :=
  match fuel with
  | O => lo
  | S fuel' =>
      let mid := Nat.div2 (lo + hi) in
      let below :=
        match nth_error a mid with
        | Some d => (f d <? x)%Z
        | None => false
        end in
      let lo' := if below then S mid else lo in
      let hi' := if below then hi else mid in
      if (lo' <? hi')%nat then left_loop fuel' a x lo' hi' else lo'
  end.

(** [bisector(f).left(a, x, lo, hi)].  The searched value is an
    [option]: [None] is NaN, for which the function returns [hi]. *)
Definition left (a : list A) (x : option Z) (lo hi : nat) : nat :=
  if (lo <? hi)%nat then
    match x with
    | None => hi
    | Some x => left_loop (hi - lo) a x lo hi
    end
  else lo.
End Bisector.

(** [Array.prototype.slice(i0, i1)] for [0 <= i0] and [0 <= i1]. *)
Definition slice {A : Type} (a : list A) (i0 i1 : nat) : list A :=
  firstn (i1 - i0) (skipn i0 a).

(** *** d3-scale: a two-point continuous scale and the time scale *)

(** [normalize(a, b)]: a degenerate interval maps everything to 1/2. *)
Definition normalize (a b x : Q) : Q :=
  if Qeq_bool (b - a) 0 then 1 # 2 else (x - a) / (b - a).

Definition interpolateNumber (a b t : Q) : Q := a * (1 - t) + b * t.

(** [bimap(domain, range, interpolate)] applied to [x]. *)
Definition bimap (d0 d1 r0 r1 x : Q) : Q :=
  if Qltb d1 d0
  then interpolateNumber r1 r0 (normalize d1 d0 x)
  else interpolateNumber r0 r1 (normalize d0 d1 x).

(** A [scaleUtc()] with a two-point domain (time values) and range. *)
Record ScaleTime : Type := mkScale { domain : Z * Z; range : Q * Q }.

(** [scale(date)]. *)
Definition apply (s : ScaleTime) (t : Z) : Q :=
  bimap (inject_Z (fst (domain s))) (inject_Z (snd (domain s)))
        (fst (range s)) (snd (range s)) (inject_Z t).

(** [scale.invert(y)]: the time scale answers with [new Date(...)]. *)
Definition invert (s : ScaleTime) (y : Q) : Z :=
  Qtrunc (bimap (fst (range s)) (snd (range s))
                (inject_Z (fst (domain s))) (inject_Z (snd (domain s))) y).

(** *** d3-zoom: transforms *)

Module Transform.
Record t : Type := mk { k : Q; x : Q; y : Q }.

Definition translate (tr : t) (dx dy : Q) : t :=
  if Qeq_bool dx 0 && Qeq_bool dy 0 then tr
  else mk (k tr) (x tr + k tr * dx) (y tr + k tr * dy).

Definition scale (tr : t) (k' : Q) : t :=
  if Qeq_bool k' 1 then tr else mk (k tr * k') (x tr) (y tr).

Definition invertX (tr : t) (px : Q) : Q := (px - x tr) / k tr.

(** [transform.rescaleX(scale)].  With [k = 0] both quotients of
    [invertX] are infinite or NaN and the new domain is a pair of invalid
    dates: [None]. *)
Definition rescaleX (tr : t) (s : ScaleTime) : option ScaleTime :=
  if Qeq_bool (k tr) 0 then None
  else Some (mkScale (invert s (invertX tr (fst (range s))),
                      invert s (invertX tr (snd (range s))))
                     (range s)).
End Transform.

Definition zoomIdentity : Transform.t := Transform.mk 1 0 0.

(** *** d3-zoom: the behaviour *)

Module Zoom.
(** The scale step of a wheel or pinch gesture: the requested factor
    is clamped to the behaviour's scale extent. *)
Definition scale (scaleExtent : Q * Q) (tr : Transform.t) (k : Q)
  : Transform.t :=
  let k := Qmax (fst scaleExtent) (Qmin (snd scaleExtent) k) in
  if Qeq_bool k (Transform.k tr) then tr
  else Transform.mk k (Transform.x tr) (Transform.y tr).

(** [zoom.transform(selection, t)]: the stored transform becomes [t]
    as given and a zoom event carrying [t] is dispatched. *)
Definition transform (t : Transform.t) : Transform.t := t.
End Zoom.

(** *** d3-scale: the linear scale *)

(** A [scaleLinear()] with a two-point domain and range. *)
Record ScaleLinear : Type := mkLinear { ldomain : Q * Q; lrange : Q * Q }.

(** [scale(value)]. *)
Definition applyLinear (s : ScaleLinear) (v : Q) : Q :=
  bimap (fst (ldomain s)) (snd (ldomain s))
        (fst (lrange s)) (snd (lrange s)) v.

(** *** d3-shape *)

(** d3-path writes every coordinate of a path rounded to three decimals,
    [Math.round(v * 1000) / 1000] (the default [digits] of [line]). *)
Definition pathRound (v : Q) : Q := inject_Z (Math_round (v * 1000)) / 1000.

(** [line().x(x).y(y)(data)] with the default linear curve, as the
    vertices of the path it describes; [None] is the [null] answered for
    no point at all. *)
Definition line {A : Type} (x y : A -> Q) (data : list A)
  : option (list (Q * Q)) :=
  match data with
  | [] => None
  | _ :: _ => Some (map (fun d => (pathRound (x d), pathRound (y d))) data)
  end.

End D3.

(** ** Layout shared by both variants *)

Record Margin : Type := mkMargin { top : Q; right : Q; bottom : Q; left : Q }.

(** ** The calls made on a 2D canvas context *)

Module Canvas2D.
(** One constructor per method called or property assigned;
    [strokePath] is [stroke(new Path2D(d))] with the vertices of [d]. *)
Inductive cmd : Type :=
| clearRect (x y w h : Q)
| beginPath
| moveTo (x y : Q)
| lineTo (x y : Q)
| strokeStyle (color : string)
| lineWidth (w : Q)
| stroke
| strokePath (path : list (Q * Q))
| font (f : string)
| fillStyle (color : string)
| textAlign (a : string)
| textBaseline (b : string)
| fillText (text : string) (x y : Q).
End Canvas2D.

(** ** The responsive component with the overview brush
       (app.component.ts, second document) *)

Module LineChart.

Definition dzHeight : Q := 40.
Definition margin : Margin := mkMargin 8 8 32 32.

(** [scaleExtent([1, 30])] of [initZoom]. *)
Definition scaleExtent : Q * Q := (1, 30).

(** Pixel size of a canvas element; the DOM keeps integers. *)
Record Canvas : Type := mkCanvas { canvas_width : Z; canvas_height : Z }.

(** The writable signals and the two canvases. *)
Record State : Type := mkState {
  data : list LineChartDataItem;
  width : Q;
  heightHost : Q;
  zoomTransform : D3.Transform.t;
  bx0 : Q;
  bx1 : Q;
  chartCanvas : Canvas;
  dzCanvas : Canvas
}.

(** *** Computed signals, as functions of the signals they read *)

Definition chartHeight (heightHost : Q) : Q :=
  Qmax 0 (heightHost - dzHeight - 16 - 8).

Definition baseXScale (data : list LineChartDataItem) (width : Q)
  : option D3.ScaleTime :=
  match D3.extent Z.ltb data date with
  | Some dom => Some (D3.mkScale dom (left margin, width - right margin))
  | None => None
  end.

Definition xScale (zoomTransform : D3.Transform.t)
                  (baseXScale : option D3.ScaleTime) : option D3.ScaleTime :=
  match baseXScale with
  | Some base => D3.Transform.rescaleX zoomTransform base
  | None => None
  end.

Definition visibleData (xScale : option D3.ScaleTime)
                       (data : list LineChartDataItem)
  : list LineChartDataItem :=
  let '(x0, x1) :=
    match xScale with
    | Some sc => (Some (fst (D3.domain sc)), Some (snd (D3.domain sc)))
    | None => (None, None)
    end in
  let i0 := D3.left date data x0 0 (length data) in
  let i1 := D3.left date data x1 i0 (length data) in
  D3.slice data i0 i1.

Definition visibleExtentY (visibleData : list LineChartDataItem) : Q * Q :=
  match D3.extent Qltb visibleData value with
  | None => (0, 1)
  | Some (min, max) =>
      if Qeq_bool min max then (min - 1, max + 1) else (min, max)
  end.

Definition yTicksValues (visibleExtentY : Q * Q) (chartHeight : Q) : list Q :=
  let '(minY, maxY) := visibleExtentY in
  let maxLabels := 5%Z in
  let fullTickCount :=
    Z.max 2 (Math_round ((chartHeight - top margin - bottom margin) / 40)) in
  let tickCount := Z.min fullTickCount maxLabels in
  let step := (maxY - minY) / inject_Z (tickCount - 1) in
  map (fun i => minY + inject_Z (Z.of_nat i) * step)
      (seq 0 (Z.to_nat tickCount)).

(** The computed signals read off a state. *)
Definition baseXScaleOf (s : State) : option D3.ScaleTime :=
  baseXScale (data s) (width s).
Definition xScaleOf (s : State) : option D3.ScaleTime :=
  xScale (zoomTransform s) (baseXScaleOf s).
Definition visibleDataOf (s : State) : list LineChartDataItem :=
  visibleData (xScaleOf s) (data s).
Definition visibleExtentYOf (s : State) : Q * Q :=
  visibleExtentY (visibleDataOf s).
Definition yTicksValuesOf (s : State) : list Q :=
  yTicksValues (visibleExtentYOf s) (chartHeight (heightHost s)).

(** *** Signal updates *)

Definition set_brush (x0 x1 : Q) (s : State) : State :=
  mkState (data s) (width s) (heightHost s) (zoomTransform s) x0 x1
          (chartCanvas s) (dzCanvas s).

Definition set_zoomTransform (t : D3.Transform.t) (s : State) : State :=
  mkState (data s) (width s) (heightHost s) t (bx0 s) (bx1 s)
          (chartCanvas s) (dzCanvas s).

(** *** setBrush *)

Definition setBrush (x0 x1 : Q) (s : State) : State :=
  let s := set_brush x0 x1 s in
  let span := Qabs (x1 - x0) in
  if Qeq_bool span 0 then s
  else
    let full := width s - left margin - right margin in
    let k := full / span in
    let tx := left margin - Qmin x0 x1 * k in
    let t := D3.Transform.scale (D3.Transform.translate D3.zoomIdentity tx 0) k in
    let s := set_zoomTransform t s in
    set_zoomTransform (D3.Zoom.transform t) s.

(** *** The effects *)

(** [syncBrushWithZoom]: the [left] and [width] styles of the selection
    element, in pixels. *)
Definition syncBrushWithZoom (s : State) : Q * Q :=
  (Qmin (bx0 s) (bx1 s), Qabs (bx1 s - bx0 s)).

Definition syncZoomWithBrush (s : State) : option State :=
  match xScaleOf s, baseXScaleOf s with
  | Some xs, Some base =>
      let '(d0, d1) := D3.domain xs in
      Some (set_brush (D3.apply base d0) (D3.apply base d1) s)
  | _, _ => None
  end.

(** *** initBrush: the drag session *)

Module Mode.
Inductive t : Type := move | l | r.
End Mode.

(** The variables [mode], [grab] and [width] closed over by the handlers;
    [None] is the [null] mode. *)
Record Drag : Type := mkDrag {
  mode : option Mode.t;
  grab : Q;
  drag_width : Q
}.

Definition startDrag (m : Mode.t) (cx : Q) (d : Drag) (s : State) : Drag :=
  let x0 := bx0 s in
  let x1 := bx1 s in
  match m with
  | Mode.move => mkDrag (Some m) (cx - x0) (x1 - x0)
  | Mode.l => mkDrag (Some m) (cx - x0) (drag_width d)
  | Mode.r => mkDrag (Some m) (cx - x1) (drag_width d)
  end.

Definition onMove (cx : Q) (d : Drag) (s : State) : Drag * State :=
  match mode d with
  | None => (d, s)
  | Some m =>
      let min := left margin in
      let max := width s - right margin in
      let x0 := bx0 s in
      let x1 := bx1 s in
      let '(x0, x1) :=
        match m with
        | Mode.move =>
            let x0 := cx - grab d in
            let x1 := x0 + drag_width d in
            let '(x0, x1) :=
              if Qltb x0 min then (min, x1 + (min - x0)) else (x0, x1) in
            if Qltb max x1 then (x0 - (x1 - max), max) else (x0, x1)
        | Mode.l => (Qmax min (Qmin (cx - grab d) max), x1)
        | Mode.r => (x0, Qmax min (Qmin (cx - grab d) max))
        end in
      if Qltb x1 x0 then
        let m' :=
          match m with
          | Mode.l => Mode.r
          | Mode.r => Mode.l
          | Mode.move => Mode.move
          end in
        (mkDrag (Some m') (- grab d) (drag_width d), setBrush x1 x0 s)
      else (d, setBrush x0 x1 s)
  end.

Definition onUp (d : Drag) : Drag := mkDrag None (grab d) (drag_width d).

(** *** observeHostResize *)

(** The observer callback: the visible time domain is captured, then
    the size signals and the canvas sizes are written. *)
Definition resize_callback (w h : Q) (s : State)
  : State * option (Z * Z) :=
  let prev := option_map D3.domain (xScaleOf s) in
  let s := mkState (data s) w h (zoomTransform s) (bx0 s) (bx1 s)
                   (chartCanvas s) (dzCanvas s) in
  let chart := mkCanvas (Qtrunc w) (Qtrunc (chartHeight (heightHost s))) in
  let dz := mkCanvas (Qtrunc w) (Qtrunc dzHeight) in
  (mkState (data s) (width s) (heightHost s) (zoomTransform s)
           (bx0 s) (bx1 s) chart dz,
   prev).

(** The step deferred with [queueMicrotask]. *)
Definition resize_microtask (prev : option (Z * Z)) (s : State)
  : option State :=
  match prev, baseXScaleOf s with
  | Some (prevD0, prevD1), Some base =>
      let nx0 := D3.apply base prevD0 in
      let nx1 := D3.apply base prevD1 in
      Some (setBrush nx0 nx1 s)
  | _, _ => None
  end.

Definition observeHostResize (w h : Q) (s : State) : option State :=
  let '(s, prev) := resize_callback w h s in
  resize_microtask prev s.

(** *** The vertical scales *)

Definition yScale (visibleExtentY : Q * Q) (chartHeight : Q)
  : D3.ScaleLinear :=
  D3.mkLinear visibleExtentY (chartHeight - bottom margin, top margin).

(** [None] over the empty dataset, whose extent is undefined. *)
Definition allYScale (data : list LineChartDataItem)
  : option D3.ScaleLinear :=
  match D3.extent Qltb data value with
  | Some dom => Some (D3.mkLinear dom (dzHeight, 0))
  | None => None
  end.

Definition yScaleOf (s : State) : D3.ScaleLinear :=
  yScale (visibleExtentYOf s) (chartHeight (heightHost s)).

(** *** initZoom: the listener of the zoom event *)

Definition onZoom (transform : D3.Transform.t) (s : State) : State :=
  set_zoomTransform transform s.

(** *** A run of pointer moves handled by [onMove] *)

Fixpoint onMoves (cxs : list Q) (d : Drag) (s : State) : Drag * State :=
  match cxs with
  | [] => (d, s)
  | cx :: rest => let '(d', s') := onMove cx d s in onMoves rest d' s'
  end.

(** *** Drawing

    Each function answers the calls it makes on the context, in order.
    The time ticks [xTicks] are read, not computed here.  The zoomed time
    scale is [None] only when its domain is a pair of invalid dates (no
    time domain, or a transform of factor 0), and then there are neither
    time ticks nor visible points. *)

Definition drawGrid (xTicks : list Z) (xScale : option D3.ScaleTime)
                    (yTicksValues : list Q) (yScale : D3.ScaleLinear)
                    (width chartHeight : Q) : list Canvas2D.cmd :=
  [Canvas2D.beginPath]
  ++ match xScale with
     | Some xs =>
         flat_map (fun t =>
                     let x := D3.apply xs t in
                     [Canvas2D.moveTo x (top margin);
                      Canvas2D.lineTo x (chartHeight - bottom margin)])
                  xTicks
     | None => []
     end
  ++ flat_map (fun v =>
                 let y := D3.applyLinear yScale v in
                 [Canvas2D.moveTo (left margin) y;
                  Canvas2D.lineTo (width - right margin) y])
              yTicksValues
  ++ [Canvas2D.moveTo (width - right margin) (top margin);
      Canvas2D.lineTo (width - right margin) (chartHeight - bottom margin);
      Canvas2D.strokeStyle "#d4d7deff";
      Canvas2D.lineWidth 1;
      Canvas2D.stroke].

Definition drawDataLine (xScale : option D3.ScaleTime)
                        (yScale : D3.ScaleLinear)
                        (visibleData : list LineChartDataItem)
  : list Canvas2D.cmd :=
  let path :=
    match xScale with
    | Some xs =>
        D3.line (fun d => D3.apply xs (date d))
                (fun d => D3.applyLinear yScale (value d))
                visibleData
    | None => None
    end in
  Canvas2D.beginPath ::
  match path with
  | None => []
  | Some path =>
      [Canvas2D.strokeStyle "#3171eeff";
       Canvas2D.lineWidth 2;
       Canvas2D.strokePath path]
  end.

Definition drawDataZoom (ctx : bool)
                        (baseXScale : option D3.ScaleTime)
                        (allYScale : option D3.ScaleLinear)
                        (data : list LineChartDataItem) (width : Q)
  : list Canvas2D.cmd :=
  if negb ctx then []
  else
    let path :=
      match baseXScale, allYScale with
      | Some bx, Some ay =>
          D3.line (fun d => D3.apply bx (date d))
                  (fun d => D3.applyLinear ay (value d))
                  data
      | _, _ => None
      end in
    [Canvas2D.clearRect 0 0 width dzHeight;
     Canvas2D.beginPath;
     Canvas2D.moveTo (left margin) 0;
     Canvas2D.lineTo (width - right margin) 0;
     Canvas2D.moveTo (left margin) dzHeight;
     Canvas2D.lineTo (width - right margin) dzHeight;
     Canvas2D.strokeStyle "#d4d7de";
     Canvas2D.lineWidth 1;
     Canvas2D.stroke;
     Canvas2D.beginPath]
    ++ match path with
       | None => []
       | Some path =>
           [Canvas2D.strokeStyle "#3171eeff";
            Canvas2D.lineWidth 1;
            Canvas2D.strokePath path]
       end.

Section Labels.
(** The two date formats of the locale, the day of the month of a date
    and [toFixed(0)] are taken as given. *)
Variables (fmtDay fmtMY : Z -> string) (getDate : Z -> Z)
          (toFixed0 : Q -> string).

Definition drawAxes (xTicks : list Z) (xScale : option D3.ScaleTime)
                    (yTicksValues : list Q) (yScale : D3.ScaleLinear)
                    (width chartHeight : Q) : list Canvas2D.cmd :=
  [Canvas2D.beginPath;
   Canvas2D.moveTo (left margin) (chartHeight - bottom margin);
   Canvas2D.lineTo (width - right margin) (chartHeight - bottom margin);
   Canvas2D.moveTo (left margin) (top margin);
   Canvas2D.lineTo (left margin) (chartHeight - bottom margin);
   Canvas2D.strokeStyle "#d4d7deff";
   Canvas2D.lineWidth 2;
   Canvas2D.stroke;
   Canvas2D.font "10px Inter";
   Canvas2D.fillStyle "#7d8699ff";
   Canvas2D.textAlign "center";
   Canvas2D.textBaseline "top"]
  ++ match xScale with
     | Some xs =>
         flat_map (fun date =>
                     let x := D3.apply xs date in
                     Canvas2D.fillText (fmtDay date) x
                                       (chartHeight - bottom margin + 8)
                     :: (if (getDate date =? 1)%Z
                         then [Canvas2D.fillText (fmtMY date) x
                                 (chartHeight - bottom margin + 20)]
                         else []))
                  xTicks
     | None => []
     end
  ++ [Canvas2D.textAlign "right";
      Canvas2D.textBaseline "middle"]
  ++ map (fun v =>
            Canvas2D.fillText (toFixed0 v) (left margin - 8)
                              (D3.applyLinear yScale v))
         yTicksValues.

Definition drawChart (ctx : bool) (xTicks : list Z) (s : State)
  : list Canvas2D.cmd :=
  if negb ctx then []
  else
    Canvas2D.clearRect 0 0 (width s) (chartHeight (heightHost s))
    :: drawGrid xTicks (xScaleOf s) (yTicksValuesOf s) (yScaleOf s)
                (width s) (chartHeight (heightHost s))
    ++ drawAxes xTicks (xScaleOf s) (yTicksValuesOf s) (yScaleOf s)
                (width s) (chartHeight (heightHost s))
    ++ drawDataLine (xScaleOf s) (yScaleOf s) (visibleDataOf s).
End Labels.

Definition drawDataZoomOf (ctx : bool) (s : State) : list Canvas2D.cmd :=
  drawDataZoom ctx (baseXScaleOf s) (allYScale (data s)) (data s) (width s).

End LineChart.

(** ** The fixed-size component (unnamed/part_000) *)

Module FixedLineChart.

Definition width : Q := 928.
Definition dzHeight : Q := 40.
Definition height : Q := 500.
Definition margin : Margin := mkMargin 8 8 32 32.

Record State : Type := mkState {
  data : list LineChartDataItem;
  zoomTransform : D3.Transform.t
}.

Definition baseXScale (data : list LineChartDataItem) : option D3.ScaleTime :=
  match D3.extent Z.ltb data date with
  | Some dom => Some (D3.mkScale dom (left margin, width - right margin))
  | None => None
  end.

Definition xScale (zoomTransform : D3.Transform.t)
                  (baseXScale : option D3.ScaleTime) : option D3.ScaleTime :=
  match baseXScale with
  | Some base => D3.Transform.rescaleX zoomTransform base
  | None => None
  end.

Definition visibleData (xScale : option D3.ScaleTime)
                       (data : list LineChartDataItem)
  : list LineChartDataItem :=
  let '(x0, x1) :=
    match xScale with
    | Some sc => (Some (fst (D3.domain sc)), Some (snd (D3.domain sc)))
    | None => (None, None)
    end in
  let i0 := D3.left date data x0 0 (length data) in
  let i1 := D3.left date data x1 i0 (length data) in
  D3.slice data i0 i1.

Definition visibleExtentY (visibleData : list LineChartDataItem) : Q * Q :=
  match D3.extent Qltb visibleData value with
  | None => (0, 1)
  | Some (min, max) =>
      if Qeq_bool min max then (min - 1, max + 1) else (min, max)
  end.

Definition yTicksValues (visibleExtentY : Q * Q) : list Q :=
  let '(minY, maxY) := visibleExtentY in
  let maxLabels := 5%Z in
  let fullTickCount :=
    Z.max 2 (Math_round ((height - top margin - bottom margin) / 40)) in
  let tickCount := Z.min fullTickCount maxLabels in
  let step := (maxY - minY) / inject_Z (tickCount - 1) in
  map (fun i => minY + inject_Z (Z.of_nat i) * step)
      (seq 0 (Z.to_nat tickCount)).

Definition xScaleOf (s : State) : option D3.ScaleTime :=
  xScale (zoomTransform s) (baseXScale (data s)).
Definition visibleDataOf (s : State) : list LineChartDataItem :=
  visibleData (xScaleOf s) (data s).
Definition visibleExtentYOf (s : State) : Q * Q :=
  visibleExtentY (visibleDataOf s).
Definition yTicksValuesOf (s : State) : list Q :=
  yTicksValues (visibleExtentYOf s).

End FixedLineChart.

(** ** The same arithmetic in double precision

    The numeric functions of the responsive component and of d3 once
    more, over the binary64 numbers of the kernel, each operation rounded
    as the JavaScript engine rounds it.  They are evaluated at concrete
    inputs, to show where the rounded results part from the exact ones. *)

Module Binary64.
Import Floats.
Local Open Scope float_scope.

(** The number of a time value; exact below [2^53]. *)
Definition of_Z (t : Z) : float :=
  let m := of_uint63 (Uint63.of_Z (Z.abs t)) in
  if (t <? 0)%Z then - m else m.

(** The time value of [new Date(x)]: [x] truncated towards zero; [None]
    is the invalid date of NaN or an infinity. *)
Definition trunc (x : float) : option Z :=
  match Prim2SF x with
  | S754_zero _ => Some 0%Z
  | S754_finite s m e =>
      let z := if (0 <=? e)%Z then Z.shiftl (Zpos m) e
               else Z.shiftr (Zpos m) (- e) in
      Some (if s then (- z)%Z else z)
  | _ => None
  end.

(** [Math.round]: the nearest integer, halves rounded up. *)
Definition Math_round (x : float) : option Z :=
  match Prim2SF x with
  | S754_zero _ => Some 0%Z
  | S754_finite s m e =>
      if (0 <=? e)%Z
      then let z := Z.shiftl (Zpos m) e in Some (if s then (- z)%Z else z)
      else
        let den := Z.shiftl 1 (- e) in
        let num := if s then (- Zpos m)%Z else Zpos m in
        Some ((2 * num + den) / (2 * den))%Z
  | _ => None
  end.

(** [Math.min] of two numbers. *)
Definition min (a b : float) : float := if b <? a then b else a.

Definition normalize (a b x : float) : float :=
  let b := b - a in
  if is_nan b then nan else if is_zero b then 0.5 else (x - a) / b.

Definition interpolateNumber (a b t : float) : float := a * (1 - t) + b * t.

Definition bimap (d0 d1 r0 r1 x : float) : float :=
  if d1 <? d0
  then interpolateNumber r1 r0 (normalize d1 d0 x)
  else interpolateNumber r0 r1 (normalize d0 d1 x).

Record ScaleTime : Type := mkScale { domain : Z * Z; range : float * float }.

Definition apply (s : ScaleTime) (t : Z) : float :=
  bimap (of_Z (fst (domain s))) (of_Z (snd (domain s)))
        (fst (range s)) (snd (range s)) (of_Z t).

Definition invert (s : ScaleTime) (y : float) : option Z :=
  trunc (bimap (fst (range s)) (snd (range s))
               (of_Z (fst (domain s))) (of_Z (snd (domain s))) y).

Record Transform : Type := mkTransform { k : float; x : float; y : float }.

Definition translate (tr : Transform) (dx dy : float) : Transform :=
  if (dx =? 0) && (dy =? 0) then tr
  else mkTransform (k tr) (x tr + k tr * dx) (y tr + k tr * dy).

Definition scale (tr : Transform) (k' : float) : Transform :=
  if k' =? 1 then tr else mkTransform (k tr * k') (x tr) (y tr).

Definition invertX (tr : Transform) (px : float) : float :=
  (px - x tr) / k tr.

Definition rescaleX (tr : Transform) (s : ScaleTime) : option ScaleTime :=
  match invert s (invertX tr (fst (range s))),
        invert s (invertX tr (snd (range s))) with
  | Some d0, Some d1 => Some (mkScale (d0, d1) (range s))
  | _, _ => None
  end.

Definition zoomIdentity : Transform := mkTransform 1 0 0.

(** [baseXScale] over a dataset of time domain [dom]. *)
Definition baseXScale (dom : Z * Z) (width : float) : ScaleTime :=
  mkScale dom (32, width - 8).

(** The transform signal after [setBrush(x0, x1)], [t] being the one
    before. *)
Definition setBrush (width x0 x1 : float) (t : Transform) : Transform :=
  let span := abs (x1 - x0) in
  if is_zero span || is_nan span then t
  else
    let full := width - 32 - 8 in
    let k := full / span in
    let tx := 32 - min x0 x1 * k in
    scale (translate zoomIdentity tx 0) k.

(** The selection written by [syncZoomWithBrush]. *)
Definition syncZoomWithBrush (t : Transform) (base : ScaleTime)
  : option (float * float) :=
  match rescaleX t base with
  | Some xs => Some (apply base (fst (domain xs)), apply base (snd (domain xs)))
  | None => None
  end.

(** The selection published by [onMove] while the whole selection is
    moved. *)
Definition moveSelection (width cx grab w : float) : float * float :=
  let min := 32 in
  let max := width - 8 in
  let x0 := cx - grab in
  let x1 := x0 + w in
  let '(x0, x1) := if x0 <? min then (min, x1 + (min - x0)) else (x0, x1) in
  let '(x0, x1) := if max <? x1 then (x0 - (x1 - max), max) else (x0, x1) in
  if x1 <? x0 then (x1, x0) else (x0, x1).

Definition yTicksValues (minY maxY chartHeight : float) : list float :=
  match Math_round ((chartHeight - 8 - 32) / 40) with
  | Some r =>
      let tickCount := Z.min (Z.max 2 r) 5 in
      let step := (maxY - minY) / of_Z (tickCount - 1) in
      map (fun i => minY + of_Z (Z.of_nat i) * step)
          (seq 0 (Z.to_nat tickCount))
  | None => []
  end.

End Binary64.

(** * Specification vocabulary *)

Section Keys.
Context {A : Type} (f : A -> Z).

(** The keys of [a] are ascending. *)
Definition ascending (a : list A) : Prop := Sorted Z.le (map f a).

(** Key at index [i] (indices past the end are never used). *)
Definition key (a : list A) (i : nat) : Z := nth i (map f a) 0%Z.

(** [r] is the first index of [[lo, hi]] whose key is at least [x]. *)
Definition first_at_least (a : list A) (x : Z) (lo hi r : nat) : Prop :=
  (lo <= r <= hi)%nat /\
  (forall i, (lo <= i < r)%nat -> (key a i < x)%Z) /\
  (forall i, (r <= i < hi)%nat -> (x <= key a i)%Z).
End Keys.

(** The linear scan of the points of the half-open window [[x0, x1)]. *)
Definition in_window (x0 x1 : Z) (d : LineChartDataItem) : bool :=
  (x0 <=? date d)%Z && (date d <? x1)%Z.

Definition linear_scan (x0 x1 : Z) (data : list LineChartDataItem)
  : list LineChartDataItem :=
  filter (in_window x0 x1) data.

(** The closed window [[x0, x1]] covers every date of the dataset. *)
Definition covers (x0 x1 : Z) (data : list LineChartDataItem) : Prop :=
  forall d, In d data -> (x0 <= date d <= x1)%Z.

(** The closed window [[x0, x1]] lies wholly before or wholly after the
    dates of the dataset. *)
Definition wholly_outside (x0 x1 : Z) (data : list LineChartDataItem) : Prop :=
  (forall d, In d data -> (x1 < date d)%Z) \/
  (forall d, In d data -> (date d < x0)%Z).

(** [m] is the least (greatest) of the values [vs]. *)
Definition is_min (m : Q) (vs : list Q) : Prop :=
  (exists v, In v vs /\ v == m) /\ forall v, In v vs -> m <= v.

Definition is_max (m : Q) (vs : list Q) : Prop :=
  (exists v, In v vs /\ v == m) /\ forall v, In v vs -> v <= m.

(** Two pixel positions differ by at most one pixel. *)
Definition within_one_pixel (a b : Q) : Prop := Qabs (a - b) <= 1.

(** Width of the plot area between the horizontal margins. *)
Definition plotWidth (s : LineChart.State) : Q :=
  LineChart.width s - left LineChart.margin - right LineChart.margin.

(** [x] is a pixel position inside the overview plot bounds. *)
Definition inside_plot (s : LineChart.State) (x : Q) : Prop :=
  left LineChart.margin <= x /\ x <= LineChart.width s - right LineChart.margin.

(** The time domain of a dataset: the extent of its dates. *)
Definition time_domain (data : list LineChartDataItem) : option (Z * Z) :=
  D3.extent Z.ltb data date.

(** The visible time domain of a state. *)
Definition visible_domain (s : LineChart.State) : option (Z * Z) :=
  option_map D3.domain (LineChart.xScaleOf s).

(** The round trip of a selection: [setBrush] publishes the transform,
    the zoomed domain is mapped back by [syncZoomWithBrush], and the
    selection signals end within one pixel of the ordered selection. *)
Definition round_trip (s : LineChart.State) (x0 x1 : Q) : Prop :=
  exists s',
    LineChart.syncZoomWithBrush (LineChart.setBrush x0 x1 s) = Some s' /\
    within_one_pixel (LineChart.bx0 s') (Qmin x0 x1) /\
    within_one_pixel (LineChart.bx1 s') (Qmax x0 x1).

(** A resize to [w] by [h] keeps the visible time domain [(d0, d1)] and
    gives both canvases the new size. *)
Definition resize_keeps (s : LineChart.State) (w h : Q) (d0 d1 : Z) : Prop :=
  exists s',
    LineChart.observeHostResize w h s = Some s' /\
    visible_domain s' = Some (d0, d1) /\
    LineChart.width s' = w /\ LineChart.heightHost s' = h /\
    LineChart.chartCanvas s' =
      LineChart.mkCanvas (Qtrunc w) (Qtrunc (LineChart.chartHeight h)) /\
    LineChart.dzCanvas s' = LineChart.mkCanvas (Qtrunc w) 40.

(** [x] is between the left and right edges of the plot of width [w]. *)
Definition in_plot_x (w x : Q) : Prop :=
  left LineChart.margin <= x /\ x <= w - right LineChart.margin.

(** [y] is between the top and bottom edges of the plot of a chart canvas
    of height [ch]. *)
Definition in_plot_y (ch y : Q) : Prop :=
  top LineChart.margin <= y /\ y <= ch - bottom LineChart.margin.

(** The vertices stroked as paths by a list of canvas calls. *)
Definition stroked_vertices (cs : list Canvas2D.cmd) : list (Q * Q) :=
  flat_map (fun c =>
              match c with
              | Canvas2D.strokePath path => path
              | _ => []
              end) cs.

(** The end points named by the [moveTo] and [lineTo] calls of a list of
    canvas calls. *)
Definition segment_points (cs : list Canvas2D.cmd) : list (Q * Q) :=
  flat_map (fun c =>
              match c with
              | Canvas2D.moveTo x y => [(x, y)]
              | Canvas2D.lineTo x y => [(x, y)]
              | _ => []
              end) cs.

(** The positions of the [fillText] calls of a list of canvas calls. *)
Definition text_points (cs : list Canvas2D.cmd) : list (Q * Q) :=
  flat_map (fun c =>
              match c with
              | Canvas2D.fillText _ x y => [(x, y)]
              | _ => []
              end) cs.

(** ** Magnitudes and slack

    The bounds within which the estimates below are stated, and the slack
    they allow (see the note on the number model). *)

(** Dates within [10^13] milliseconds of the epoch (the years 1653 to
    2286). *)
Definition date_bound : Z := 10000000000000.

(** Pixel positions and sizes up to a million pixels. *)
Definition pixel_bound : Q := 1000000.

(** Values up to [2^52] in magnitude: up to there doubles tell [v - 1],
    [v] and [v + 1] apart. *)
Definition value_bound : Q := 4503599627370496.

(** A millionth of a pixel, for sums and differences of pixel positions. *)
Definition pixel_slack : Q := 1 # 1000000.

(** A thousandth of a pixel, the resolution of a path written by d3. *)
Definition path_slack : Q := 1 # 1000.

Definition dates_bounded (data : list LineChartDataItem) : Prop :=
  forall d, In d data -> (- date_bound <= date d <= date_bound)%Z.

Definition values_bounded (data : list LineChartDataItem) : Prop :=
  forall d, In d data -> Qabs (value d) <= value_bound.

(** Two pixel positions agree up to the rounding of a few sums. *)
Definition same_pixel (a b : Q) : Prop := Qabs (a - b) <= pixel_slack.

(** Two dates differ by at most one millisecond. *)
Definition within_one_ms (a b : Z) : Prop := (Z.abs (a - b) <= 1)%Z.

(** A resize to [w] by [h] keeps the visible time domain [(d0, d1)] to
    the millisecond (each end at most one millisecond off) and gives both
    canvases the new size. *)
Definition resize_keeps_to_the_ms
    (s : LineChart.State) (w h : Q) (d0 d1 : Z) : Prop :=
  exists s' e0 e1,
    LineChart.observeHostResize w h s = Some s' /\
    visible_domain s' = Some (e0, e1) /\
    within_one_ms e0 d0 /\ within_one_ms e1 d1 /\
    LineChart.width s' = w /\ LineChart.heightHost s' = h /\
    LineChart.chartCanvas s' =
      LineChart.mkCanvas (Qtrunc w) (Qtrunc (LineChart.chartHeight h)) /\
    LineChart.dzCanvas s' = LineChart.mkCanvas (Qtrunc w) 40.

(** A stroked vertex of the main chart: not left of the plot nor above
    it, and right of it or below it by less than the resolution of the
    path. *)
Definition vertex_in_plot (w ch : Q) (p : Q * Q) : Prop :=
  left LineChart.margin <= fst p /\
  fst p <= w - right LineChart.margin + path_slack /\
  top LineChart.margin <= snd p /\
  snd p <= ch - bottom LineChart.margin + path_slack.

(** A stroked vertex of the overview: inside the strip, right of the plot
    by less than the resolution of the path. *)
Definition vertex_in_strip (w : Q) (p : Q * Q) : Prop :=
  left LineChart.margin <= fst p /\
  fst p <= w - right LineChart.margin + path_slack /\
  0 <= snd p /\ snd p <= LineChart.dzHeight.

(** An end point of a grid line: between the left and right edges of the
    plot, not below it, and above it by less than [path_slack]. *)
Definition grid_point_in_plot (w ch : Q) (p : Q * Q) : Prop :=
  in_plot_x w (fst p) /\
  top LineChart.margin - path_slack <= snd p /\
  snd p <= ch - bottom LineChart.margin.

(** ** Example inputs *)

Module Examples.
Definition day : Z := 86400000.

(** Two daily points. *)
Definition two_days : list LineChartDataItem :=
  [mkItem 0 10; mkItem day 20].

(** The single point of 2024-01-01 with value 50. *)
Definition single_point : list LineChartDataItem :=
  [mkItem 1704067200000 50].

(** A component at rest over [data], laid out in a [w] by [h] host. *)
Definition at_rest (data : list LineChartDataItem) (w h : Q)
  : LineChart.State :=
  LineChart.mkState data w h D3.zoomIdentity
    (left LineChart.margin) (w - right LineChart.margin)
    (LineChart.mkCanvas (Qtrunc w) (Qtrunc (LineChart.chartHeight h)))
    (LineChart.mkCanvas (Qtrunc w) 40).
End Examples.

(** * Properties *)

(** ** Numbers *)

Lemma Qltb_true (a b : Q) : Qltb a b = true <-> a < b.
Proof.
  unfold Qltb. rewrite negb_true_iff. split.
  - intros H. apply Qnot_le_lt. intros Hle.
    apply Qle_bool_iff in Hle. congruence.
  - intros H. destruct (Qle_bool b a) eqn:E; [|reflexivity].
    apply Qle_bool_iff in E. exfalso. exact (Qlt_not_le _ _ H E).
Qed.

Lemma Qltb_false (a b : Q) : Qltb a b = false <-> b <= a.
Proof.
  unfold Qltb. rewrite negb_false_iff. apply Qle_bool_iff.
Qed.

Lemma Qeq_bool_false (a b : Q) : Qeq_bool a b = false <-> ~ a == b.
Proof.
  split.
  - apply Qeq_bool_neq.
  - intros H. destruct (Qeq_bool a b) eqn:E; [|reflexivity].
    apply Qeq_bool_iff in E. contradiction.
Qed.

Ltac case_Qltb a b H :=
  destruct (Qltb a b) eqn:H;
  [apply Qltb_true in H | apply Qltb_false in H].

Ltac case_Qeq a b H :=
  destruct (Qeq_bool a b) eqn:H;
  [apply Qeq_bool_iff in H | apply Qeq_bool_false in H].

Lemma Qmax_cases (a b : Q) :
  (a <= b /\ Qmax a b == b) \/ (b <= a /\ Qmax a b == a).
Proof.
  destruct (Q.max_spec a b) as [[H E]|[H E]]; [left|right]; split;
    try exact E; try exact H. apply Qlt_le_weak, H.
Qed.

Lemma Qmin_cases (a b : Q) :
  (a <= b /\ Qmin a b == a) \/ (b <= a /\ Qmin a b == b).
Proof.
  destruct (Q.min_spec a b) as [[H E]|[H E]]; [left|right]; split;
    try exact E; try exact H. apply Qlt_le_weak, H.
Qed.

Lemma Qabs_cases (a : Q) :
  (0 <= a /\ Qabs a == a) \/ (a <= 0 /\ Qabs a == - a).
Proof.
  destruct (Qlt_le_dec a 0) as [H|H].
  - right. split; [apply Qlt_le_weak, H|].
    apply Qabs_neg, Qlt_le_weak, H.
  - left. split; [exact H|]. apply Qabs_pos, H.
Qed.


Section BisectorFacts.
Context {A : Type} (f : A -> Z).

Lemma key_nth_error (a : list A) (i : nat) (d : A) :
  nth_error a i = Some d -> key f a i = f d.
Proof.
  intros H. unfold key.
  rewrite (nth_error_nth (map f a) i 0%Z (x := f d)); [reflexivity|].
  rewrite nth_error_map, H. reflexivity.
Qed.

Lemma ascending_key (a : list A) :
  ascending f a ->
  forall i j, (i <= j)%nat -> (j < length a)%nat -> (key f a i <= key f a j)%Z.
Proof.
  unfold ascending, key. intros Hs.
  apply Sorted_StronglySorted in Hs; [|intros p q r; apply Z.le_trans].
  rewrite <- (length_map f a).
  induction Hs as [|h t Ht IH Hh]; intros i j Hij Hj; simpl in *; [lia|].
  destruct i as [|i], j as [|j]; try lia.
  - rewrite Forall_forall in Hh. apply Hh, nth_In. lia.
  - apply IH; lia.
Qed.

Lemma div2_between (lo hi : nat) :
  (lo < hi)%nat -> (lo <= Nat.div2 (lo + hi) < hi)%nat.
Proof.
  intros H. rewrite Nat.div2_div.
  split.
  - apply Nat.div_le_lower_bound; lia.
  - apply Nat.Div0.div_lt_upper_bound; lia.
Qed.

Lemma left_loop_spec (a : list A) (x : Z) (lo0 hi0 : nat) :
  ascending f a -> (hi0 <= length a)%nat ->
  forall fuel lo hi,
    (hi - lo <= fuel)%nat -> (lo0 <= lo)%nat -> (lo < hi)%nat -> (hi <= hi0)%nat ->
    (forall i, (lo0 <= i < lo)%nat -> (key f a i < x)%Z) ->
    (forall i, (hi <= i < hi0)%nat -> (x <= key f a i)%Z) ->
    first_at_least f a x lo0 hi0 (D3.left_loop f fuel a x lo hi).
Proof.
  intros Hs Hlen.
  induction fuel as [|fuel IH]; intros lo hi Hfuel Hlo Hlt Hhi Hbelow Habove;
    [lia|].
  simpl.
  pose proof (div2_between lo hi Hlt) as Hmid.
  set (mid := Nat.div2 (lo + hi)) in *.
  destruct (nth_error a mid) as [d|] eqn:Hd.
  2:{ apply nth_error_None in Hd. lia. }
  apply key_nth_error in Hd.
  destruct (f d <? x)%Z eqn:Hcmp.
  - apply Z.ltb_lt in Hcmp.
    assert (Hbelow' : forall i, (lo0 <= i < S mid)%nat -> (key f a i < x)%Z).
    { intros i Hi.
      assert (key f a i <= key f a mid)%Z by (apply ascending_key; auto; lia).
      lia. }
    destruct (S mid <? hi)%nat eqn:Hgo.
    + apply Nat.ltb_lt in Hgo. apply IH; try lia; assumption.
    + apply Nat.ltb_ge in Hgo.
      repeat split; try lia; try assumption.
      intros i Hi. apply Habove. lia.
  - apply Z.ltb_ge in Hcmp.
    assert (Habove' : forall i, (mid <= i < hi0)%nat -> (x <= key f a i)%Z).
    { intros i Hi.
      assert (key f a mid <= key f a i)%Z by (apply ascending_key; auto; lia).
      lia. }
    destruct (lo <? mid)%nat eqn:Hgo.
    + apply Nat.ltb_lt in Hgo. apply IH; try lia; assumption.
    + apply Nat.ltb_ge in Hgo.
      repeat split; try lia; try assumption.
      intros i Hi. apply Habove'. lia.
Qed.

(** [left] returns the first index from [lo] on whose key is at least
    [x], or [length a] when there is none. *)
Lemma left_spec (a : list A) (x : Z) (lo : nat) :
  ascending f a -> (lo <= length a)%nat ->
  first_at_least f a x lo (length a) (D3.left f a (Some x) lo (length a)).
Proof.
  intros Hs Hlo. unfold D3.left.
  destruct (lo <? length a)%nat eqn:Hlt.
  - apply Nat.ltb_lt in Hlt.
    apply left_loop_spec; auto; try lia; intros i Hi; lia.
  - apply Nat.ltb_ge in Hlt.
    repeat split; try lia; intros i Hi; lia.
Qed.
End BisectorFacts.

(** ** Visible-window bisection *)

Section SliceFacts.
Context {A : Type}.

Lemma filter_none (p : A -> bool) (a : list A) :
  (forall d, In d a -> p d = false) -> filter p a = [].
Proof.
  induction a as [|h t IH]; intros H; simpl; [reflexivity|].
  rewrite (H h (or_introl eq_refl)). apply IH.
  intros d Hd. apply H. right. exact Hd.
Qed.

Lemma filter_all (p : A -> bool) (a : list A) :
  (forall d, In d a -> p d = true) -> filter p a = a.
Proof.
  induction a as [|h t IH]; intros H; simpl; [reflexivity|].
  rewrite (H h (or_introl eq_refl)). f_equal. apply IH.
  intros d Hd. apply H. right. exact Hd.
Qed.

(** A slice whose members are exactly the elements satisfying [p] is
    the filter by [p]. *)
Lemma slice_filter (p : A -> bool) (a : list A) :
  forall i0 i1, (i0 <= i1)%nat ->
    (forall i d, nth_error a i = Some d -> (i < i0)%nat -> p d = false) ->
    (forall i d, nth_error a i = Some d -> (i0 <= i < i1)%nat -> p d = true) ->
    (forall i d, nth_error a i = Some d -> (i1 <= i)%nat -> p d = false) ->
    D3.slice a i0 i1 = filter p a.
Proof.
  unfold D3.slice.
  induction a as [|h t IH]; intros i0 i1 Hle Hlow Hmid Hhigh.
  - rewrite skipn_nil, firstn_nil. reflexivity.
  - destruct i0 as [|i0].
    + destruct i1 as [|i1]; simpl.
      * rewrite (Hhigh 0%nat h eq_refl (Nat.le_refl _)).
        symmetry. apply filter_none. intros d Hd.
        apply In_nth_error in Hd. destruct Hd as [i Hi].
        apply (Hhigh (S i)); [exact Hi|lia].
      * rewrite (Hmid 0%nat h eq_refl) by lia. f_equal.
        specialize (IH 0%nat i1). simpl in IH.
        rewrite Nat.sub_0_r in IH. apply IH; [lia| | |].
        -- intros i d _ Hi. lia.
        -- intros i d Hd Hi. apply (Hmid (S i)); [exact Hd|lia].
        -- intros i d Hd Hi. apply (Hhigh (S i)); [exact Hd|lia].
    + destruct i1 as [|i1]; [lia|]. simpl.
      rewrite (Hlow 0%nat h eq_refl) by lia.
      apply IH; [lia| | |].
      * intros i d Hd Hi. apply (Hlow (S i)); [exact Hd|lia].
      * intros i d Hd Hi. apply (Hmid (S i)); [exact Hd|lia].
      * intros i d Hd Hi. apply (Hhigh (S i)); [exact Hd|lia].
Qed.
End SliceFacts.

Lemma visibleData_window (sc : D3.ScaleTime) (data : list LineChartDataItem) :
  LineChart.visibleData (Some sc) data =
  D3.slice data
    (D3.left date data (Some (fst (D3.domain sc))) 0 (length data))
    (D3.left date data (Some (snd (D3.domain sc)))
       (D3.left date data (Some (fst (D3.domain sc))) 0 (length data))
       (length data)).
Proof. reflexivity. Qed.

(** C4, with the boundary convention of the code.  Over a dataset sorted ascending by date, the
    visible slice for the window [[x0, x1]] is [data[i0:i1]], where [i0]
    is the first index whose date is at least [x0] and [i1] the first
    index from [i0] on whose date is at least [x1]; the slice is the
    linear scan of the half-open window [x0 <= date < x1]; a window wholly
    outside the dates gives the empty slice, and a window with
    [x0 <= date < x1] for every date gives the whole dataset. *)
Theorem visibleData_bisection
    (data : list LineChartDataItem) (sc : D3.ScaleTime) :
  ascending date data ->
  let x0 := fst (D3.domain sc) in
  let x1 := snd (D3.domain sc) in
  let i0 := D3.left date data (Some x0) 0 (length data) in
  let i1 := D3.left date data (Some x1) i0 (length data) in
  LineChart.visibleData (Some sc) data = D3.slice data i0 i1 /\
  first_at_least date data x0 0 (length data) i0 /\
  first_at_least date data x1 i0 (length data) i1 /\
  LineChart.visibleData (Some sc) data = linear_scan x0 x1 data /\
  (wholly_outside x0 x1 data -> LineChart.visibleData (Some sc) data = []) /\
  ((forall d, In d data -> (x0 <= date d < x1)%Z) ->
   LineChart.visibleData (Some sc) data = data).
Proof.
  intros Hs x0 x1 i0 i1.
  pose proof (left_spec date data x0 0 Hs (Nat.le_0_l _)) as H0.
  fold i0 in H0.
  assert (Hi0 : (i0 <= length data)%nat) by (destruct H0 as [[_ ?] _]; assumption).
  pose proof (left_spec date data x1 i0 Hs Hi0) as H1.
  fold i1 in H1.
  assert (Hscan : LineChart.visibleData (Some sc) data = linear_scan x0 x1 data).
  { rewrite visibleData_window. fold x0 x1 i0 i1.
    destruct H0 as [_ [Hb0 Ha0]], H1 as [[Hle1 Hlen1] [Hb1 Ha1]].
    unfold linear_scan.
    apply slice_filter; [exact Hle1| | |]; intros i d Hd Hi;
      pose proof (key_nth_error date data i d Hd) as Hk;
      assert (Hlt : (i < length data)%nat)
        by (apply nth_error_Some; rewrite Hd; discriminate);
      unfold in_window.
    - specialize (Hb0 i ltac:(lia)).
      apply andb_false_intro1, Z.leb_gt. lia.
    - specialize (Ha0 i ltac:(lia)). specialize (Hb1 i ltac:(lia)).
      apply andb_true_intro. split; [apply Z.leb_le|apply Z.ltb_lt]; lia.
    - specialize (Ha1 i ltac:(lia)).
      apply andb_false_intro2, Z.ltb_ge. lia. }
  split; [apply visibleData_window|].
  split; [exact H0|]. split; [exact H1|]. split; [exact Hscan|]. split.
  - intros Hout. rewrite Hscan. apply filter_none. intros d Hd.
    unfold in_window. destruct Hout as [Hout|Hout]; specialize (Hout d Hd).
    + apply andb_false_intro2, Z.ltb_ge. lia.
    + apply andb_false_intro1, Z.leb_gt. lia.
  - intros Hin. rewrite Hscan. apply filter_all. intros d Hd.
    unfold in_window. specialize (Hin d Hd).
    apply andb_true_intro. split; [apply Z.leb_le|apply Z.ltb_lt]; lia.
Qed.

(** ** The visible value extent *)

Lemma extent_fold_values (l : list LineChartDataItem) :
  forall mn mx, mn <= mx ->
    exists mn' mx',
      fold_left (D3.extent_step Qltb value) l (Some (mn, mx)) = Some (mn', mx') /\
      (mn' = mn \/ In mn' (map value l)) /\
      (mx' = mx \/ In mx' (map value l)) /\
      mn' <= mn /\ mx <= mx' /\
      (forall v, In v (map value l) -> mn' <= v <= mx').
Proof.
  induction l as [|d t IH]; intros mn mx Hle; simpl.
  - exists mn, mx. repeat split; auto; try apply Qle_refl.
    + contradiction.
    + contradiction.
  - set (v := value d).
    set (mn1 := if Qltb v mn then v else mn).
    set (mx1 := if Qltb mx v then v else mx).
    assert (H1 : mn1 <= mn /\ mn1 <= v /\ (mn1 = mn \/ mn1 = v)).
    { unfold mn1. case_Qltb v mn E; repeat split; auto; lra. }
    assert (H2 : mx <= mx1 /\ v <= mx1 /\ (mx1 = mx \/ mx1 = v)).
    { unfold mx1. case_Qltb mx v E; repeat split; auto; lra. }
    destruct H1 as [Ha [Hb Hc]], H2 as [Hd [He Hf]].
    destruct (IH mn1 mx1 ltac:(lra)) as [mn' [mx' [Hfold [Hin1 [Hin2 [Hl [Hu Hall]]]]]]].
    exists mn', mx'. split; [exact Hfold|].
    split; [|split; [|split; [lra|split; [lra|]]]].
    + destruct Hin1 as [->|Hin]; [|right; right; exact Hin].
      destruct Hc as [->| ->]; [left; reflexivity|right; left; reflexivity].
    + destruct Hin2 as [->|Hin]; [|right; right; exact Hin].
      destruct Hf as [->| ->]; [left; reflexivity|right; left; reflexivity].
    + intros w [<-|Hw]; [fold v; lra|apply Hall, Hw].
Qed.

Lemma extent_values_nonempty (d : LineChartDataItem) (t : list LineChartDataItem) :
  exists mn mx,
    D3.extent Qltb (d :: t) value = Some (mn, mx) /\
    In mn (map value (d :: t)) /\ In mx (map value (d :: t)) /\
    (forall v, In v (map value (d :: t)) -> mn <= v <= mx).
Proof.
  unfold D3.extent. simpl.
  destruct (extent_fold_values t (value d) (value d) (Qle_refl _))
    as [mn [mx [Hfold [Hin1 [Hin2 [Hl [Hu Hall]]]]]]].
  exists mn, mx. split; [exact Hfold|].
  split; [|split].
  - destruct Hin1 as [->|H]; [left; reflexivity|right; exact H].
  - destruct Hin2 as [->|H]; [left; reflexivity|right; exact H].
  - intros v [<-|Hv]; [lra|apply Hall, Hv].
Qed.

(** C5.  The visible value domain is [[min, max]] of the values of the
    visible slice when [min < max], [[min - 1, max + 1]] when the slice is
    not empty and its values are all equal (so [[49, 51]] for a single
    point of value 50), and [[0, 1]] for the empty slice. *)
Theorem visibleExtentY_total (visible : list LineChartDataItem) :
  (visible = [] -> LineChart.visibleExtentY visible = (0, 1)) /\
  (forall m M,
      is_min m (map value visible) -> is_max M (map value visible) ->
      (m < M ->
       fst (LineChart.visibleExtentY visible) == m /\
       snd (LineChart.visibleExtentY visible) == M) /\
      (m == M ->
       fst (LineChart.visibleExtentY visible) == m - 1 /\
       snd (LineChart.visibleExtentY visible) == M + 1)) /\
  (forall d, LineChart.visibleExtentY [mkItem d 50] = (49, 51)).
Proof.
  split; [intros ->; reflexivity|].
  split; [|intros d; reflexivity].
  intros m M [[vm [Hvm Em]] Hmin] [[vM [HvM EM]] Hmax].
  destruct visible as [|d t]; [contradiction|].
  destruct (extent_values_nonempty d t) as [mn [mx [Hext [Hin1 [Hin2 Hall]]]]].
  assert (Emn : mn == m).
  { apply Qle_antisym.
    - rewrite <- Em. apply (Hall vm Hvm).
    - apply Hmin, Hin1. }
  assert (Emx : mx == M).
  { apply Qle_antisym.
    - apply Hmax, Hin2.
    - rewrite <- EM. apply (Hall vM HvM). }
  unfold LineChart.visibleExtentY. rewrite Hext.
  case_Qeq mn mx E; simpl; split; intros H; split; lra.
Qed.

(** ** Value ticks *)

Lemma nth_map_seq (g : nat -> Q) (n i : nat) :
  (i < n)%nat -> nth i (map g (seq 0 n)) 0 = g i.
Proof.
  intros H.
  rewrite (nth_indep _ 0 (g 0%nat)) by (rewrite length_map, length_seq; exact H).
  rewrite map_nth, seq_nth by exact H. reflexivity.
Qed.

(** C8, with the count the code computes.  There are [n] value ticks,
    where [n] is [round(plotHeight / 40)] raised to at least 2 and capped
    at 5; so there are between 2 and 5 of them and never more than
    [max(2, round(plotHeight / 40))].  Tick [i] is [minY + i * step] with
    the constant step [(maxY - minY) / (n - 1)], each computed from [minY]
    and not from the tick before; the first tick is [minY] itself.  (The
    last one is [minY + (n - 1) * step]: [maxY] up to the rounding of that
    expression.) *)
Theorem yTicksValues_bounds (minY maxY chartHeight : Q) :
  let ticks := LineChart.yTicksValues (minY, maxY) chartHeight in
  let plotHeight :=
    chartHeight - top LineChart.margin - bottom LineChart.margin in
  let n := length ticks in
  let step := (maxY - minY) / inject_Z (Z.of_nat n - 1) in
  (2 <= n <= 5)%nat /\
  Z.of_nat n = Z.min (Z.max 2 (Math_round (plotHeight / 40))) 5 /\
  (Z.of_nat n <= Z.max 2 (Math_round (plotHeight / 40)))%Z /\
  (forall i, (i < n)%nat ->
     nth i ticks 0 = minY + inject_Z (Z.of_nat i) * step) /\
  nth 0 ticks 0 == minY.
Proof.
  intros ticks plotHeight n step.
  set (tickCount := Z.min (Z.max 2 (Math_round (plotHeight / 40))) 5).
  assert (Hrange : (2 <= tickCount <= 5)%Z) by (unfold tickCount; lia).
  assert (Hticks : ticks =
            map (fun i => minY + inject_Z (Z.of_nat i) *
                                 ((maxY - minY) / inject_Z (tickCount - 1)))
                (seq 0 (Z.to_nat tickCount))) by reflexivity.
  assert (Hn : n = Z.to_nat tickCount).
  { unfold n. rewrite Hticks, length_map, length_seq. reflexivity. }
  assert (HnZ : Z.of_nat n = tickCount) by lia.
  assert (Hstep : step = (maxY - minY) / inject_Z (tickCount - 1)).
  { unfold step. rewrite HnZ. reflexivity. }
  assert (Hnth : forall i, (i < n)%nat ->
            nth i ticks 0 = minY + inject_Z (Z.of_nat i) * step).
  { intros i Hi. rewrite Hticks, Hstep.
    apply (nth_map_seq (fun i => minY + inject_Z (Z.of_nat i) * _)). lia. }
  split; [lia|]. split; [exact HnZ|]. split; [unfold tickCount in HnZ; lia|].
  split; [exact Hnth|].
  rewrite (Hnth 0%nat) by lia. simpl. unfold inject_Z. ring.
Qed.

(** ** setBrush *)

(** C9.  A call of [setBrush] with [x0 == x1] writes the two selection
    signals and nothing else: the zoom transform is left as it was, the
    quotient by the span is not formed. *)
Theorem setBrush_zero_width (s : LineChart.State) (x0 x1 : Q) :
  x0 == x1 ->
  LineChart.setBrush x0 x1 s = LineChart.set_brush x0 x1 s /\
  LineChart.bx0 (LineChart.setBrush x0 x1 s) = x0 /\
  LineChart.bx1 (LineChart.setBrush x0 x1 s) = x1 /\
  LineChart.zoomTransform (LineChart.setBrush x0 x1 s) =
  LineChart.zoomTransform s.
Proof.
  intros H.
  assert (E : LineChart.setBrush x0 x1 s = LineChart.set_brush x0 x1 s).
  { unfold LineChart.setBrush.
    case_Qeq (Qabs (x1 - x0)) 0 E; [reflexivity|].
    exfalso. apply E.
    assert (Hz : x1 - x0 == 0) by lra.
    rewrite Hz. reflexivity. }
  rewrite E. repeat split; reflexivity.
Qed.

(** Whenever [setBrush] does form the quotient, its divisor is positive
    and the transform it publishes has the factor and translation of the
    selection. *)
Lemma setBrush_transform (s : LineChart.State) (x0 x1 : Q) :
  ~ x0 == x1 ->
  let span := Qabs (x1 - x0) in
  let full := LineChart.width s - left LineChart.margin - right LineChart.margin in
  let t := LineChart.zoomTransform (LineChart.setBrush x0 x1 s) in
  0 < span /\
  D3.Transform.k t == full / span /\
  D3.Transform.x t == left LineChart.margin - Qmin x0 x1 * (full / span) /\
  LineChart.bx0 (LineChart.setBrush x0 x1 s) = x0 /\
  LineChart.bx1 (LineChart.setBrush x0 x1 s) = x1 /\
  LineChart.data (LineChart.setBrush x0 x1 s) = LineChart.data s /\
  LineChart.width (LineChart.setBrush x0 x1 s) = LineChart.width s.
Proof.
  intros H span full t.
  assert (Hspan : 0 < span).
  { unfold span. destruct (Qabs_cases (x1 - x0)) as [[Hs E]|[Hs E]];
      rewrite E; destruct (Qlt_le_dec x0 x1), (Qlt_le_dec x1 x0);
      try lra; exfalso; apply H; lra. }
  split; [exact Hspan|].
  unfold t, LineChart.setBrush. fold span.
  case_Qeq span 0 E; [lra|].
  cbn [LineChart.width LineChart.set_brush LineChart.set_zoomTransform
       LineChart.zoomTransform LineChart.bx0 LineChart.bx1 LineChart.data
       D3.Zoom.transform].
  fold full.
  set (k := full / span).
  set (tx := left LineChart.margin - Qmin x0 x1 * k).
  unfold D3.Transform.scale, D3.Transform.translate, D3.zoomIdentity.
  case_Qeq tx 0 Etx; case_Qeq k 1 Ek; cbn; repeat split; try lra;
    try reflexivity.
Qed.

Lemma setBrush_selection (s : LineChart.State) (x0 x1 : Q) :
  LineChart.bx0 (LineChart.setBrush x0 x1 s) = x0 /\
  LineChart.bx1 (LineChart.setBrush x0 x1 s) = x1.
Proof.
  unfold LineChart.setBrush.
  destruct (Qeq_bool (Qabs (x1 - x0)) 0); split; reflexivity.
Qed.

(** ** The brush drag *)

(** X28.  One update of a resize drag.  The grabbed edge goes to [p],
    the pointer position less the grab offset, clamped to the plot; when
    that leaves the edges out of order they are swapped and the role
    changes side in the same update, so the selection handed to
    [setBrush] is ordered and the edge named by the role after the update
    is the one at [p].  The swap also negates the grab offset: from then
    on the edge is put at the pointer position plus the offset it was
    grabbed with. *)
Theorem onMove_edge_crossing
    (cx : Q) (d : LineChart.Drag) (s : LineChart.State) (m : LineChart.Mode.t) :
  LineChart.mode d = Some m -> m <> LineChart.Mode.move ->
  let min := left LineChart.margin in
  let max := LineChart.width s - right LineChart.margin in
  let p := Qmax min (Qmin (cx - LineChart.grab d) max) in
  let x0 := match m with LineChart.Mode.l => p | _ => LineChart.bx0 s end in
  let x1 := match m with LineChart.Mode.r => p | _ => LineChart.bx1 s end in
  let d' := fst (LineChart.onMove cx d s) in
  let s' := snd (LineChart.onMove cx d s) in
  LineChart.bx0 s' <= LineChart.bx1 s' /\
  (x1 < x0 ->
   LineChart.bx0 s' = x1 /\ LineChart.bx1 s' = x0 /\
   LineChart.mode d' =
     Some (match m with
           | LineChart.Mode.l => LineChart.Mode.r
           | _ => LineChart.Mode.l
           end) /\
   LineChart.grab d' = - LineChart.grab d) /\
  (x0 <= x1 ->
   LineChart.bx0 s' = x0 /\ LineChart.bx1 s' = x1 /\ d' = d) /\
  match LineChart.mode d' with
  | Some LineChart.Mode.l => LineChart.bx0 s' = p
  | Some LineChart.Mode.r => LineChart.bx1 s' = p
  | _ => False
  end.
Proof.
  intros Hm Hres min max p x0 x1 d' s'.
  assert (Hmove : LineChart.onMove cx d s =
            if Qltb x1 x0
            then (LineChart.mkDrag
                    (Some (match m with
                           | LineChart.Mode.l => LineChart.Mode.r
                           | LineChart.Mode.r => LineChart.Mode.l
                           | LineChart.Mode.move => LineChart.Mode.move
                           end))
                    (- LineChart.grab d) (LineChart.drag_width d),
                  LineChart.setBrush x1 x0 s)
            else (d, LineChart.setBrush x0 x1 s)).
  { unfold LineChart.onMove. rewrite Hm.
    destruct m; [contradiction| |]; reflexivity. }
  unfold d', s'. rewrite Hmove.
  case_Qltb x1 x0 E; cbn [fst snd LineChart.mode];
    destruct (setBrush_selection s x0 x1) as [A0 A1];
    destruct (setBrush_selection s x1 x0) as [B0 B1].
  - rewrite B0, B1.
    split; [lra|].
    split; [intros _; cbn [LineChart.grab]; destruct m; try contradiction; auto|].
    split; [intros Hle; lra|].
    destruct m; [contradiction| |]; reflexivity.
  - rewrite A0, A1.
    split; [exact E|]. split; [intros Hlt; lra|].
    split; [intros _; auto|].
    rewrite Hm. destruct m; [contradiction| |]; reflexivity.
Qed.

(** A move of the whole selection in exact arithmetic: with the width
    captured from an ordered selection and no larger than the plot width,
    the update yields a selection inside the bounds of exactly the
    captured width, shifted by the pointer delta while that keeps it
    inside. *)
Lemma onMove_move_exact
    (cx0 cx : Q) (d0 : LineChart.Drag) (s0 s : LineChart.State) :
  let d := LineChart.startDrag LineChart.Mode.move cx0 d0 s0 in
  let min := left LineChart.margin in
  let max := LineChart.width s - right LineChart.margin in
  let s' := snd (LineChart.onMove cx d s) in
  LineChart.bx0 s0 <= LineChart.bx1 s0 ->
  LineChart.drag_width d <= max - min ->
  LineChart.drag_width d == LineChart.bx1 s0 - LineChart.bx0 s0 /\
  min <= LineChart.bx0 s' /\
  LineChart.bx0 s' <= LineChart.bx1 s' /\
  LineChart.bx1 s' <= max /\
  LineChart.bx1 s' - LineChart.bx0 s' == LineChart.drag_width d /\
  (min <= LineChart.bx0 s0 + (cx - cx0) ->
   LineChart.bx1 s0 + (cx - cx0) <= max ->
   LineChart.bx0 s' == LineChart.bx0 s0 + (cx - cx0) /\
   LineChart.bx1 s' == LineChart.bx1 s0 + (cx - cx0)) /\
  fst (LineChart.onMove cx d s) = d.
Proof.
  intros d min max s' Hord Hw.
  assert (Hwd : LineChart.drag_width d = LineChart.bx1 s0 - LineChart.bx0 s0)
    by reflexivity.
  assert (Hgd : LineChart.grab d == cx0 - LineChart.bx0 s0) by reflexivity.
  assert (Hwq : LineChart.drag_width d == LineChart.bx1 s0 - LineChart.bx0 s0)
    by reflexivity.
  assert (Hpos : 0 <= LineChart.drag_width d) by (rewrite Hwd; lra).
  split; [rewrite Hwd; reflexivity|].
  set (w := LineChart.drag_width d) in *.
  set (g := LineChart.grab d) in *.
  unfold s', LineChart.onMove.
  replace (LineChart.mode d) with (Some LineChart.Mode.move) by reflexivity.
  fold min max g w.
  case_Qltb (cx - g) min E1.
  - case_Qltb max (cx - g + w + (min - (cx - g))) E2.
    + case_Qltb max (min - (cx - g + w + (min - (cx - g)) - max)) E3;
        cbn [fst snd];
        match goal with
        | |- context [LineChart.setBrush ?a ?b s] =>
            destruct (setBrush_selection s a b) as [A0 A1]; rewrite A0, A1
        end; repeat split; try lra; intros; try split; lra.
    + case_Qltb (cx - g + w + (min - (cx - g))) min E3;
        cbn [fst snd];
        match goal with
        | |- context [LineChart.setBrush ?a ?b s] =>
            destruct (setBrush_selection s a b) as [A0 A1]; rewrite A0, A1
        end; repeat split; try lra; intros; try split; lra.
  - case_Qltb max (cx - g + w) E2.
    + case_Qltb max (cx - g - (cx - g + w - max)) E3;
        cbn [fst snd];
        match goal with
        | |- context [LineChart.setBrush ?a ?b s] =>
            destruct (setBrush_selection s a b) as [A0 A1]; rewrite A0, A1
        end; repeat split; try lra; intros; try split; lra.
    + case_Qltb (cx - g + w) (cx - g) E3;
        cbn [fst snd];
        match goal with
        | |- context [LineChart.setBrush ?a ?b s] =>
            destruct (setBrush_selection s a b) as [A0 A1]; rewrite A0, A1
        end; repeat split; try lra; intros; try split; lra.
Qed.

Lemma same_pixel_of_eq (a b : Q) : a == b -> same_pixel a b.
Proof.
  intros H. unfold same_pixel.
  assert (E : a - b == 0) by lra.
  rewrite E. discriminate.
Qed.

(** C7, from an ordered selection.  While the whole selection is moved,
    with the width captured at drag start from an ordered selection (so
    not negative) and no larger than the plot width, and with pointer
    positions, edges and host width up to a million pixels, every update
    yields an ordered selection that is inside
    [[marginLeft, width - marginRight]] and as wide as the captured
    width, each to within a millionth of a pixel; as long as the shifted
    edges stay inside the bounds, both edges are the edges at drag start
    shifted by the pointer delta, to the same precision; the drag stays a
    move. *)
Theorem onMove_move_clamped
    (cx0 cx : Q) (d0 : LineChart.Drag) (s0 s : LineChart.State) :
  let d := LineChart.startDrag LineChart.Mode.move cx0 d0 s0 in
  let min := left LineChart.margin in
  let max := LineChart.width s - right LineChart.margin in
  let s' := snd (LineChart.onMove cx d s) in
  LineChart.bx0 s0 <= LineChart.bx1 s0 ->
  LineChart.drag_width d <= max - min ->
  Qabs cx0 <= pixel_bound -> Qabs cx <= pixel_bound ->
  Qabs (LineChart.bx0 s0) <= pixel_bound ->
  Qabs (LineChart.bx1 s0) <= pixel_bound ->
  LineChart.width s <= pixel_bound ->
  LineChart.drag_width d = LineChart.bx1 s0 - LineChart.bx0 s0 /\
  min - pixel_slack <= LineChart.bx0 s' /\
  LineChart.bx0 s' <= LineChart.bx1 s' /\
  LineChart.bx1 s' <= max + pixel_slack /\
  same_pixel (LineChart.bx1 s' - LineChart.bx0 s') (LineChart.drag_width d) /\
  (min <= LineChart.bx0 s0 + (cx - cx0) ->
   LineChart.bx1 s0 + (cx - cx0) <= max ->
   same_pixel (LineChart.bx0 s') (LineChart.bx0 s0 + (cx - cx0)) /\
   same_pixel (LineChart.bx1 s') (LineChart.bx1 s0 + (cx - cx0))) /\
  LineChart.mode (fst (LineChart.onMove cx d s)) = Some LineChart.Mode.move.
Proof.
  intros d min max s' Hord Hw _ _ _ _ _.
  destruct (onMove_move_exact cx0 cx d0 s0 s Hord Hw)
    as [_ [Hlo [Ho [Hhi [Hwid [Hshift Hd]]]]]].
  fold d min max s' in Hlo, Ho, Hhi, Hwid, Hshift, Hd.
  assert (Hs : 0 <= pixel_slack) by discriminate.
  split; [reflexivity|].
  split; [lra|]. split; [exact Ho|]. split; [lra|].
  split; [apply same_pixel_of_eq, Hwid|].
  split.
  - intros H0 H1. destruct (Hshift H0 H1) as [E0 E1].
    split; apply same_pixel_of_eq; assumption.
  - rewrite Hd. reflexivity.
Qed.

(** ** Dates from numbers *)

Lemma Qtrunc_comp (a b : Q) : a == b -> Qtrunc a = Qtrunc b.
Proof.
  intros H. unfold Qtrunc.
  rewrite (Qfloor_comp a b H), (Qceiling_comp a b H).
  rewrite (Qleb_comp 0 0 (Qeq_refl 0) a b H). reflexivity.
Qed.

Lemma Qtrunc_inject_Z (z : Z) : Qtrunc (inject_Z z) = z.
Proof.
  unfold Qtrunc. destruct (Qle_bool 0 (inject_Z z));
    [apply Qfloor_Z|apply Qceiling_Z].
Qed.

Lemma Qtrunc_close (q : Q) :
  - (1) < inject_Z (Qtrunc q) - q /\ inject_Z (Qtrunc q) - q < 1.
Proof.
  unfold Qtrunc. destruct (Qle_bool 0 q).
  - pose proof (Qfloor_le q) as H1. pose proof (Qlt_floor q) as H2.
    rewrite inject_Z_plus in H2. change (inject_Z 1) with 1 in H2.
    split; lra.
  - pose proof (Qle_ceiling q) as H1. pose proof (Qceiling_lt q) as H2.
    unfold Z.sub in H2. rewrite inject_Z_plus in H2.
    rewrite inject_Z_opp in H2. change (inject_Z 1) with 1 in H2.
    split; lra.
Qed.

Lemma Math_round_comp (a b : Q) : a == b -> Math_round a = Math_round b.
Proof.
  intros H. unfold Math_round. apply Qfloor_comp. rewrite H. reflexivity.
Qed.

(** ** Scales *)

Lemma Qltb_comp (a a' b b' : Q) :
  a == a' -> b == b' -> Qltb a b = Qltb a' b'.
Proof.
  intros Ha Hb. unfold Qltb. rewrite (Qleb_comp b b' Hb a a' Ha). reflexivity.
Qed.

Lemma normalize_comp (a a' b b' x x' : Q) :
  a == a' -> b == b' -> x == x' ->
  D3.normalize a b x == D3.normalize a' b' x'.
Proof.
  intros Ha Hb Hx. unfold D3.normalize.
  assert (E : Qeq_bool (b - a) 0 = Qeq_bool (b' - a') 0).
  { apply Qeqb_comp; [rewrite Ha, Hb|]; reflexivity. }
  rewrite <- E.
  case_Qeq (b - a) 0 E0; [reflexivity|].
  rewrite Ha, Hb, Hx. reflexivity.
Qed.

Lemma bimap_comp (d0 d0' d1 d1' r0 r0' r1 r1' x x' : Q) :
  d0 == d0' -> d1 == d1' -> r0 == r0' -> r1 == r1' -> x == x' ->
  D3.bimap d0 d1 r0 r1 x == D3.bimap d0' d1' r0' r1' x'.
Proof.
  intros H0 H1 H2 H3 Hx. unfold D3.bimap.
  rewrite <- (Qltb_comp d1 d1' d0 d0' H1 H0).
  destruct (Qltb d1 d0); unfold D3.interpolateNumber.
  - rewrite (normalize_comp d1 d1' d0 d0' x x' H1 H0 Hx), H2, H3. reflexivity.
  - rewrite (normalize_comp d0 d0' d1 d1' x x' H0 H1 Hx), H2, H3. reflexivity.
Qed.

(** Over an increasing domain the scale is the affine map through its
    end points. *)
Lemma bimap_increasing (d0 d1 r0 r1 x : Q) :
  d0 < d1 ->
  D3.bimap d0 d1 r0 r1 x == r0 + (x - d0) / (d1 - d0) * (r1 - r0).
Proof.
  intros H. unfold D3.bimap.
  case_Qltb d1 d0 E; [lra|].
  unfold D3.normalize, D3.interpolateNumber.
  case_Qeq (d1 - d0) 0 E0; [lra|].
  field. exact E0.
Qed.

(** Over a one-point domain the scale is constant. *)
Lemma bimap_degenerate (d r0 r1 x x' : Q) :
  D3.bimap d d r0 r1 x == D3.bimap d d r0 r1 x'.
Proof.
  unfold D3.bimap, D3.normalize.
  assert (E : d - d == 0) by ring.
  apply Qeq_bool_iff in E. rewrite E.
  reflexivity.
Qed.

Lemma invert_comp (s : D3.ScaleTime) (y y' : Q) :
  y == y' -> D3.invert s y = D3.invert s y'.
Proof.
  intros H. unfold D3.invert. apply Qtrunc_comp.
  apply bimap_comp; try reflexivity. exact H.
Qed.

(** [invert] undoes [apply] on dates. *)
Lemma invert_apply (s : D3.ScaleTime) (t : Z) (y : Q) :
  (fst (D3.domain s) < snd (D3.domain s))%Z ->
  fst (D3.range s) < snd (D3.range s) ->
  y == D3.apply s t ->
  D3.invert s y = t.
Proof.
  intros Hd Hr Hy.
  rewrite <- (Qtrunc_inject_Z t). unfold D3.invert. apply Qtrunc_comp.
  rewrite (bimap_increasing _ _ _ _ _ Hr), Hy.
  unfold D3.apply.
  rewrite Zlt_Qlt in Hd.
  rewrite (bimap_increasing _ _ _ _ _ Hd).
  field. split; lra.
Qed.

(** [apply] undoes [invert] up to the pixels of one millisecond. *)
Lemma apply_invert_close (s : D3.ScaleTime) (y : Q) :
  (fst (D3.domain s) < snd (D3.domain s))%Z ->
  fst (D3.range s) < snd (D3.range s) ->
  snd (D3.range s) - fst (D3.range s) <=
    inject_Z (snd (D3.domain s)) - inject_Z (fst (D3.domain s)) ->
  Qabs (D3.apply s (D3.invert s y) - y) <= 1.
Proof.
  intros Hd Hr Hres.
  rewrite Zlt_Qlt in Hd.
  unfold D3.apply, D3.invert.
  set (D0 := inject_Z (fst (D3.domain s))) in *.
  set (D1 := inject_Z (snd (D3.domain s))) in *.
  set (r0 := fst (D3.range s)) in *.
  set (r1 := snd (D3.range s)) in *.
  set (q := D3.bimap r0 r1 D0 D1 y).
  assert (Hq : q == D0 + (y - r0) / (r1 - r0) * (D1 - D0))
    by apply (bimap_increasing _ _ _ _ _ Hr).
  destruct (Qtrunc_close q) as [Hlo Hhi].
  set (z := inject_Z (Qtrunc q)) in *.
  rewrite (bimap_increasing _ _ _ _ _ Hd).
  set (c := (r1 - r0) / (D1 - D0)).
  assert (Hc : 0 < c /\ c <= 1).
  { unfold c. split.
    - apply Qlt_shift_div_l; lra.
    - apply Qle_shift_div_r; lra. }
  assert (Hdiff : r0 + (z - D0) / (D1 - D0) * (r1 - r0) - y == (z - q) * c).
  { unfold c. rewrite Hq. field. split; lra. }
  rewrite Hdiff.
  apply Qabs_Qle_condition. split; nra.
Qed.

(** ** The selection and the zoomed domain *)

Lemma Qmax_min_span (x0 x1 : Q) : Qmax x0 x1 == Qmin x0 x1 + Qabs (x1 - x0).
Proof.
  destruct (Qmax_cases x0 x1) as [[H1 E1]|[H1 E1]];
    destruct (Qmin_cases x0 x1) as [[H2 E2]|[H2 E2]];
    destruct (Qabs_cases (x1 - x0)) as [[H3 E3]|[H3 E3]];
    rewrite E1, E2, E3; lra.
Qed.

(** After [setBrush] the zoomed time scale has as its domain the dates
    under the two ends of the selection. *)
Lemma xScaleOf_setBrush
    (s : LineChart.State) (x0 x1 : Q) (base : D3.ScaleTime) :
  LineChart.baseXScaleOf s = Some base ->
  ~ x0 == x1 -> ~ plotWidth s == 0 ->
  LineChart.baseXScaleOf (LineChart.setBrush x0 x1 s) = Some base /\
  LineChart.xScaleOf (LineChart.setBrush x0 x1 s) =
    Some (D3.mkScale (D3.invert base (Qmin x0 x1),
                      D3.invert base (Qmax x0 x1))
                     (D3.range base)).
Proof.
  intros Hbase Hne Hw.
  destruct (setBrush_transform s x0 x1 Hne)
    as [Hspan [Hk [Hx [_ [_ [Hdata Hwidth]]]]]].
  assert (Hbase' : LineChart.baseXScaleOf (LineChart.setBrush x0 x1 s) = Some base).
  { unfold LineChart.baseXScaleOf. rewrite Hdata, Hwidth. exact Hbase. }
  split; [exact Hbase'|].
  unfold LineChart.xScaleOf. rewrite Hbase'.
  set (t := LineChart.zoomTransform (LineChart.setBrush x0 x1 s)) in *.
  unfold LineChart.xScale, D3.Transform.rescaleX.
  assert (Hrange : D3.range base =
            (left LineChart.margin, LineChart.width s - right LineChart.margin)).
  { unfold LineChart.baseXScaleOf, LineChart.baseXScale in Hbase.
    destruct (D3.extent Z.ltb (LineChart.data s) date); [|discriminate].
    injection Hbase as <-. reflexivity. }
  set (span := Qabs (x1 - x0)) in *.
  set (full := LineChart.width s - left LineChart.margin - right LineChart.margin) in *.
  assert (Hfull : ~ full == 0) by exact Hw.
  assert (Hspan0 : ~ span == 0) by lra.
  assert (Hk0 : ~ D3.Transform.k t == 0).
  { rewrite Hk. intros E. apply Hfull.
    rewrite <- (Qmult_div_r full span Hspan0), E. ring. }
  apply Qeq_bool_false in Hk0. rewrite Hk0.
  do 2 f_equal. f_equal; apply invert_comp; rewrite Hrange;
    unfold D3.Transform.invertX; cbn [fst snd]; rewrite Hk, Hx.
  - field. split; assumption.
  - rewrite Qmax_min_span. fold span. unfold full. field.
    split; assumption.
Qed.

(** The margin of the round trip: when one millisecond is at most half a
    pixel, every date within two milliseconds of the exact preimage of a
    pixel (the date the code computes is, being the truncation of a
    rounded quotient) is mapped back to within that pixel. *)
Lemma apply_close_to_preimage (s : D3.ScaleTime) (y : Q) (e : Z) :
  (fst (D3.domain s) < snd (D3.domain s))%Z ->
  fst (D3.range s) < snd (D3.range s) ->
  2 * (snd (D3.range s) - fst (D3.range s)) <=
    inject_Z (snd (D3.domain s)) - inject_Z (fst (D3.domain s)) ->
  Qabs (inject_Z e -
        D3.bimap (fst (D3.range s)) (snd (D3.range s))
                 (inject_Z (fst (D3.domain s))) (inject_Z (snd (D3.domain s)))
                 y) <= 2 ->
  Qabs (D3.apply s e - y) <= 1.
Proof.
  intros Hd Hr Hres He.
  rewrite Zlt_Qlt in Hd.
  unfold D3.apply.
  set (D0 := inject_Z (fst (D3.domain s))) in *.
  set (D1 := inject_Z (snd (D3.domain s))) in *.
  set (r0 := fst (D3.range s)) in *.
  set (r1 := snd (D3.range s)) in *.
  set (q := D3.bimap r0 r1 D0 D1 y) in *.
  assert (Hq : q == D0 + (y - r0) / (r1 - r0) * (D1 - D0))
    by apply (bimap_increasing _ _ _ _ _ Hr).
  apply Qabs_Qle_condition in He. destruct He as [Hlo Hhi].
  set (z := inject_Z e) in *.
  rewrite (bimap_increasing _ _ _ _ _ Hd).
  set (c := (r1 - r0) / (D1 - D0)).
  assert (Hc : 0 < c /\ 2 * c <= 1).
  { unfold c. split.
    - apply Qlt_shift_div_l; lra.
    - assert (E : 2 * ((r1 - r0) / (D1 - D0)) == 2 * (r1 - r0) / (D1 - D0))
        by (field; lra).
      rewrite E. apply Qle_shift_div_r; lra. }
  assert (Hdiff : r0 + (z - D0) / (D1 - D0) * (r1 - r0) - y == (z - q) * c).
  { unfold c. rewrite Hq. field. split; lra. }
  rewrite Hdiff.
  apply Qabs_Qle_condition. split; nra.
Qed.

(** C1, over datasets of sufficient time span.  Over a dataset whose
    dates lie within [10^13] milliseconds of the epoch and whose time
    domain spans at least twice as many milliseconds as the plot is wide
    in pixels, [setBrush(x0, x1)] with [x0 != x1] inside the plot bounds
    publishes the transform with [k = plotWidth / |x1 - x0|] and
    [tx = marginLeft - min(x0, x1) * k], and mapping the zoomed domain
    back through the base scale gives [(min(x0, x1), max(x0, x1))] to
    within one pixel. *)
Theorem brush_zoom_round_trip
    (s : LineChart.State) (x0 x1 : Q) (D0 D1 : Z) :
  time_domain (LineChart.data s) = Some (D0, D1) ->
  (- date_bound <= D0)%Z -> (D1 <= date_bound)%Z ->
  0 < plotWidth s ->
  2 * plotWidth s <= inject_Z D1 - inject_Z D0 ->
  inside_plot s x0 -> inside_plot s x1 ->
  ~ x0 == x1 ->
  let t := LineChart.zoomTransform (LineChart.setBrush x0 x1 s) in
  D3.Transform.k t == plotWidth s / Qabs (x1 - x0) /\
  D3.Transform.x t ==
    left LineChart.margin - Qmin x0 x1 * (plotWidth s / Qabs (x1 - x0)) /\
  round_trip s x0 x1.
Proof.
  intros Hdom _ _ Hpos Hres _ _ Hne t.
  destruct (setBrush_transform s x0 x1 Hne) as [_ [Hk [Hx _]]].
  split; [exact Hk|]. split; [exact Hx|].
  set (base := D3.mkScale (D0, D1)
                 (left LineChart.margin,
                  LineChart.width s - right LineChart.margin)).
  assert (Hbase : LineChart.baseXScaleOf s = Some base).
  { unfold LineChart.baseXScaleOf, LineChart.baseXScale.
    unfold time_domain in Hdom. rewrite Hdom. reflexivity. }
  assert (Hw : ~ plotWidth s == 0) by lra.
  destruct (xScaleOf_setBrush s x0 x1 base Hbase Hne Hw) as [Hb' Hxs].
  unfold round_trip, LineChart.syncZoomWithBrush.
  rewrite Hxs, Hb'. cbn [D3.domain].
  eexists. split; [reflexivity|].
  unfold plotWidth in *.
  assert (HD : (D0 < D1)%Z) by (rewrite Zlt_Qlt; lra).
  split; apply apply_invert_close; cbn [base D3.domain D3.range fst snd];
    try exact HD; lra.
Qed.

(** ** Resizing *)

Lemma Qmin_l_lt (a b : Q) : a < b -> Qmin a b == a.
Proof.
  intros H. destruct (Qmin_cases a b) as [[_ E]|[H' E]]; rewrite E; lra.
Qed.

Lemma Qmax_r_lt (a b : Q) : a < b -> Qmax a b == b.
Proof.
  intros H. destruct (Qmax_cases a b) as [[_ E]|[H' E]]; rewrite E; lra.
Qed.

(** The scale is strictly increasing when its domain and range are. *)
Lemma apply_increasing (s : D3.ScaleTime) (a b : Z) :
  (fst (D3.domain s) < snd (D3.domain s))%Z ->
  fst (D3.range s) < snd (D3.range s) ->
  (a < b)%Z -> D3.apply s a < D3.apply s b.
Proof.
  intros Hd Hr Hab. rewrite Zlt_Qlt in Hd, Hab. unfold D3.apply.
  rewrite !(bimap_increasing _ _ _ _ _ Hd).
  set (D0 := inject_Z (fst (D3.domain s))) in *.
  set (D1 := inject_Z (snd (D3.domain s))) in *.
  set (c := (snd (D3.range s) - fst (D3.range s)) / (D1 - D0)).
  assert (Hc : 0 < c) by (apply Qlt_shift_div_l; lra).
  assert (E : forall x, (x - D0) / (D1 - D0) * (snd (D3.range s) - fst (D3.range s))
                        == (x - D0) * c).
  { intros x. unfold c. field. lra. }
  rewrite !E. nra.
Qed.

(** A resize in exact arithmetic: when the dataset's time domain is not a
    single instant, the new width exceeds the two horizontal margins and
    the captured visible domain [[d0, d1]] has [d0 < d1], the resize
    followed by its deferred [setBrush] brings the domain [[d0, d1]]
    back. *)
Lemma resize_restores_domain
    (s : LineChart.State) (w h : Q) (D0 D1 d0 d1 : Z) :
  time_domain (LineChart.data s) = Some (D0, D1) ->
  (D0 < D1)%Z ->
  left LineChart.margin + right LineChart.margin < w ->
  visible_domain s = Some (d0, d1) ->
  (d0 < d1)%Z ->
  resize_keeps s w h d0 d1.
Proof.
  intros Hdom HD Hw Hvis Hd.
  unfold resize_keeps, LineChart.observeHostResize, LineChart.resize_callback.
  unfold visible_domain in Hvis. rewrite Hvis.
  set (s1 := LineChart.mkState _ _ _ _ _ _ _ _).
  set (base := D3.mkScale (D0, D1)
                 (left LineChart.margin, w - right LineChart.margin)).
  assert (Hbase : LineChart.baseXScaleOf s1 = Some base).
  { unfold LineChart.baseXScaleOf, LineChart.baseXScale.
    unfold time_domain in Hdom. cbn [s1 LineChart.data LineChart.width].
    rewrite Hdom. reflexivity. }
  unfold LineChart.resize_microtask. rewrite Hbase.
  set (nx0 := D3.apply base d0). set (nx1 := D3.apply base d1).
  assert (Hr : fst (D3.range base) < snd (D3.range base))
    by (cbn; cbn in Hw; lra).
  assert (Hnx : nx0 < nx1) by (apply apply_increasing; assumption).
  assert (Hne : ~ nx0 == nx1) by lra.
  assert (Hpw : ~ plotWidth s1 == 0).
  { unfold plotWidth. cbn [s1 LineChart.width]. cbn in Hw. cbn. lra. }
  destruct (xScaleOf_setBrush s1 nx0 nx1 base Hbase Hne Hpw) as [_ Hxs].
  destruct (setBrush_transform s1 nx0 nx1 Hne) as [_ [_ [_ [_ [_ [_ Hwidth]]]]]].
  eexists. split; [reflexivity|].
  split.
  { unfold visible_domain. rewrite Hxs. cbn [option_map D3.domain].
    rewrite (invert_comp base _ nx0 (Qmin_l_lt _ _ Hnx)).
    rewrite (invert_comp base _ nx1 (Qmax_r_lt _ _ Hnx)).
    rewrite (invert_apply base d0 nx0 HD Hr (Qeq_refl _)).
    rewrite (invert_apply base d1 nx1 HD Hr (Qeq_refl _)).
    reflexivity. }
  split; [exact Hwidth|].
  unfold LineChart.setBrush.
  destruct (Qeq_bool (Qabs (nx1 - nx0)) 0); repeat split; reflexivity.
Qed.

(** The millisecond of a resize: a number less than a millisecond away
    from a date (as the rounded quotient of [invert] is, within the
    bounds below) is truncated to that date or to one a millisecond from
    it. *)
Lemma Qtrunc_near_date (d : Z) (q : Q) :
  Qabs (q - inject_Z d) < 1 -> within_one_ms (Qtrunc q) d.
Proof.
  intros H.
  assert (Hq : inject_Z d - 1 < q /\ q < inject_Z d + 1).
  { destruct (Qabs_cases (q - inject_Z d)) as [[S E]|[S E]];
      rewrite E in H; split; lra. }
  destruct Hq as [Hlo Hhi].
  destruct (Qtrunc_close q) as [T0 T1].
  assert (A : inject_Z (d - 2) < inject_Z (Qtrunc q)).
  { unfold Z.sub. rewrite inject_Z_plus, inject_Z_opp.
    change (inject_Z 2) with 2. lra. }
  assert (B : inject_Z (Qtrunc q) < inject_Z (d + 2)).
  { rewrite inject_Z_plus. change (inject_Z 2) with 2. lra. }
  rewrite <- Zlt_Qlt in A, B.
  unfold within_one_ms. lia.
Qed.

(** C3, for resizes that leave room for the plot.  Over a dataset whose
    dates lie within [10^13] milliseconds of the epoch, when the new size
    is at most a million pixels each way, the new width is at least 80
    pixels and the captured visible domain [[d0, d1]] has [d0 < d1] and
    lies inside the time domain of the dataset, the resize followed by
    its deferred [setBrush] leaves the zoomed time scale with a domain
    whose ends are [d0] and [d1] to the millisecond (each at most one
    millisecond off); the size signals hold the new size, both canvases
    get the integer part of the new width, the chart canvas the integer
    part of [max(0, height - 64)] as height, the overview canvas 40. *)
Theorem resize_preserves_visible_domain
    (s : LineChart.State) (w h : Q) (D0 D1 d0 d1 : Z) :
  time_domain (LineChart.data s) = Some (D0, D1) ->
  (- date_bound <= D0)%Z -> (D1 <= date_bound)%Z ->
  80 <= w -> w <= pixel_bound -> h <= pixel_bound ->
  visible_domain s = Some (d0, d1) ->
  (D0 <= d0)%Z -> (d0 < d1)%Z -> (d1 <= D1)%Z ->
  resize_keeps_to_the_ms s w h d0 d1.
Proof.
  intros Hdom _ _ Hw _ _ Hvis H0 Hd H1.
  assert (HD : (D0 < D1)%Z) by lia.
  assert (Hw' : left LineChart.margin + right LineChart.margin < w)
    by (cbn; lra).
  destruct (resize_restores_domain s w h D0 D1 d0 d1 Hdom HD Hw' Hvis Hd)
    as [s' [Hs [Hdom' Hrest]]].
  exists s', d0, d1.
  split; [exact Hs|]. split; [exact Hdom'|].
  split; [unfold within_one_ms; lia|].
  split; [unfold within_one_ms; lia|].
  exact Hrest.
Qed.

(** ** The two variants *)

Lemma invert_range_comp (dom : Z * Z) (r0 r0' r1 r1' y y' : Q) :
  r0 == r0' -> r1 == r1' -> y == y' ->
  D3.invert (D3.mkScale dom (r0, r1)) y = D3.invert (D3.mkScale dom (r0', r1')) y'.
Proof.
  intros H0 H1 Hy. unfold D3.invert. cbn [D3.domain D3.range fst snd].
  apply Qtrunc_comp, bimap_comp; try reflexivity; assumption.
Qed.

Lemma rescaleX_domain_comp
    (t : D3.Transform.t) (dom : Z * Z) (r0 r0' r1 r1' : Q) :
  r0 == r0' -> r1 == r1' ->
  option_map D3.domain (D3.Transform.rescaleX t (D3.mkScale dom (r0, r1))) =
  option_map D3.domain (D3.Transform.rescaleX t (D3.mkScale dom (r0', r1'))).
Proof.
  intros H0 H1. unfold D3.Transform.rescaleX, D3.Transform.invertX.
  destruct (Qeq_bool (D3.Transform.k t) 0); [reflexivity|].
  cbn [option_map D3.domain D3.range fst snd].
  do 2 f_equal; apply invert_range_comp; try assumption.
  - rewrite H0. reflexivity.
  - rewrite H1. reflexivity.
Qed.

Lemma visibleData_same_window
    (xs xs' : option D3.ScaleTime) (data : list LineChartDataItem) :
  option_map D3.domain xs = option_map D3.domain xs' ->
  LineChart.visibleData xs data = FixedLineChart.visibleData xs' data.
Proof.
  destruct xs as [sc|], xs' as [sc'|]; cbn [option_map]; intros H;
    try discriminate; [|reflexivity].
  injection H as H.
  unfold LineChart.visibleData, FixedLineChart.visibleData.
  rewrite H. reflexivity.
Qed.

Lemma yTicksValues_same_height (ext : Q * Q) (ch : Q) :
  ch == FixedLineChart.height ->
  LineChart.yTicksValues ext ch = FixedLineChart.yTicksValues ext.
Proof.
  intros H. unfold LineChart.yTicksValues, FixedLineChart.yTicksValues.
  destruct ext as [minY maxY].
  rewrite (Math_round_comp
             ((ch - top LineChart.margin - bottom LineChart.margin) / 40)
             ((FixedLineChart.height - top FixedLineChart.margin
               - bottom FixedLineChart.margin) / 40)).
  - reflexivity.
  - rewrite H. reflexivity.
Qed.

(** C10.  Over the same dataset and zoom transform, when the responsive
    component's width is 928 and its chart height is 500, both components
    compute the same visible slice, the same visible value extent and the
    same value ticks. *)
Theorem variants_agree (s : LineChart.State) (f : FixedLineChart.State) :
  LineChart.data s = FixedLineChart.data f ->
  LineChart.zoomTransform s = FixedLineChart.zoomTransform f ->
  LineChart.width s == FixedLineChart.width ->
  LineChart.chartHeight (LineChart.heightHost s) == FixedLineChart.height ->
  LineChart.visibleDataOf s = FixedLineChart.visibleDataOf f /\
  LineChart.visibleExtentYOf s = FixedLineChart.visibleExtentYOf f /\
  LineChart.yTicksValuesOf s = FixedLineChart.yTicksValuesOf f.
Proof.
  intros Hdata Hzoom Hw Hh.
  assert (Hvis : LineChart.visibleDataOf s = FixedLineChart.visibleDataOf f).
  { unfold LineChart.visibleDataOf, FixedLineChart.visibleDataOf.
    rewrite Hdata. apply visibleData_same_window.
    unfold LineChart.xScaleOf, FixedLineChart.xScaleOf,
      LineChart.baseXScaleOf, LineChart.baseXScale, FixedLineChart.baseXScale,
      LineChart.xScale, FixedLineChart.xScale.
    rewrite Hdata, Hzoom.
    destruct (D3.extent Z.ltb (FixedLineChart.data f) date) as [dom|];
      [|reflexivity].
    apply rescaleX_domain_comp; [reflexivity|].
    rewrite Hw. reflexivity. }
  assert (Hext : LineChart.visibleExtentYOf s = FixedLineChart.visibleExtentYOf f).
  { unfold LineChart.visibleExtentYOf, FixedLineChart.visibleExtentYOf.
    rewrite Hvis. reflexivity. }
  split; [exact Hvis|]. split; [exact Hext|].
  unfold LineChart.yTicksValuesOf, FixedLineChart.yTicksValuesOf.
  rewrite Hext. apply yTicksValues_same_height, Hh.
Qed.

(** ** The scale factor *)

(** A selection inside the plot bounds never gives a factor below the
    configured minimum. *)
Lemma setBrush_scale_at_least_one (s : LineChart.State) (x0 x1 : Q) :
  ~ x0 == x1 -> inside_plot s x0 -> inside_plot s x1 ->
  fst LineChart.scaleExtent
  <= D3.Transform.k (LineChart.zoomTransform (LineChart.setBrush x0 x1 s)).
Proof.
  intros Hne [Hl0 Hr0] [Hl1 Hr1].
  destruct (setBrush_transform s x0 x1 Hne) as [Hspan [Hk _]].
  rewrite Hk. cbn [fst LineChart.scaleExtent].
  apply Qle_shift_div_l; [exact Hspan|].
  destruct (Qabs_cases (x1 - x0)) as [[_ E]|[_ E]]; rewrite E; lra.
Qed.

(** The scale step of a zoom gesture keeps the factor inside the
    configured extent. *)
Lemma zoom_gesture_scale_in_extent (tr : D3.Transform.t) (k : Q) :
  let t := D3.Zoom.scale LineChart.scaleExtent tr k in
  fst LineChart.scaleExtent <= D3.Transform.k t /\
  D3.Transform.k t <= snd LineChart.scaleExtent.
Proof.
  cbn zeta. unfold D3.Zoom.scale, LineChart.scaleExtent. cbn [fst snd].
  set (c := Qmax 1 (Qmin 30 k)).
  assert (Hc : 1 <= c /\ c <= 30).
  { unfold c.
    destruct (Qmax_cases 1 (Qmin 30 k)) as [[H E]|[H E]];
      destruct (Qmin_cases 30 k) as [[H' E']|[H' E']];
      rewrite E; try rewrite E'; split; lra. }
  case_Qeq c (D3.Transform.k tr) E; cbn [D3.Transform.k]; [rewrite <- E|];
    exact Hc.
Qed.

(** C2, at a failing input.  Over a 928 pixel wide component at rest,
    grabbing the left handle at 32 and moving the pointer to 910 leaves a
    10 pixel selection, and [setBrush] publishes the factor [888 / 10],
    above the configured maximum of 30. *)
Theorem brush_drag_exceeds_scale_extent :
  let s := Examples.at_rest Examples.two_days 928 564 in
  let d := LineChart.startDrag LineChart.Mode.l 32
             (LineChart.mkDrag None 0 0) s in
  let s' := snd (LineChart.onMove 910 d s) in
  LineChart.bx0 s' == 910 /\ LineChart.bx1 s' == 920 /\
  D3.Transform.k (LineChart.zoomTransform s') == 888 / 10 /\
  snd LineChart.scaleExtent < D3.Transform.k (LineChart.zoomTransform s').
Proof.
  vm_compute. repeat split; reflexivity.
Qed.

(** ** The claims at concrete inputs *)

(** C1 does not hold over the single-point dataset: the base scale
    sends every date to the middle of its range, so the selection
    [(100, 200)] comes back as [(476, 476)]. *)
Lemma round_trip_fails_on_single_point :
  ~ (forall s x0 x1,
        ~ x0 == x1 -> inside_plot s x0 -> inside_plot s x1 ->
        round_trip s x0 x1).
Proof.
  intros H.
  destruct (H (Examples.at_rest Examples.single_point 928 564) 100 200)
    as [s' [Hs [H0 _]]].
  - intros E. vm_compute in E. discriminate E.
  - split; vm_compute; discriminate.
  - split; vm_compute; discriminate.
  - vm_compute in Hs. injection Hs as <-.
    vm_compute in H0. exact (H0 eq_refl).
Qed.

(** The resolution condition of C1 is needed as well: over two points one
    millisecond apart the same selection comes back as [(32, 32)]. *)
Lemma round_trip_fails_on_one_millisecond :
  ~ round_trip (Examples.at_rest [mkItem 0 10; mkItem 1 20] 928 564) 100 200.
Proof.
  intros [s' [Hs [H0 _]]].
  vm_compute in Hs. injection Hs as <-.
  vm_compute in H0. exact (H0 eq_refl).
Qed.

Lemma brush_zoom_round_trip_witness :
  round_trip (Examples.at_rest Examples.two_days 928 564) 100 200.
Proof.
  refine (proj2 (proj2 (brush_zoom_round_trip
            (Examples.at_rest Examples.two_days 928 564) 100 200
            0 Examples.day _ _ _ _ _ _ _ _))).
  - reflexivity.
  - vm_compute. discriminate.
  - vm_compute. discriminate.
  - reflexivity.
  - vm_compute. discriminate.
  - split; vm_compute; discriminate.
  - split; vm_compute; discriminate.
  - intros E. vm_compute in E. discriminate E.
Defined.

(** C3 does not hold when the host is resized to nothing (a hidden
    container reports 0 by 0): the deferred [setBrush] then publishes the
    factor [-1] and the visible domain comes back reversed. *)
Lemma resize_to_zero_reverses_domain :
  ~ (forall s w h d0 d1,
        visible_domain s = Some (d0, d1) -> resize_keeps s w h d0 d1).
Proof.
  intros H.
  destruct (H (Examples.at_rest Examples.two_days 800 564) 0 0
              0%Z Examples.day eq_refl)
    as [s' [Hs [Hd _]]].
  vm_compute in Hs. injection Hs as <-.
  vm_compute in Hd. discriminate Hd.
Qed.

Lemma resize_preserves_visible_domain_witness :
  resize_keeps_to_the_ms
    (LineChart.onZoom (D3.Transform.mk 2 (-32) 0)
       (Examples.at_rest Examples.two_days 800 564))
    400 300 0 43200000.
Proof.
  apply (resize_preserves_visible_domain
           (LineChart.onZoom (D3.Transform.mk 2 (-32) 0)
              (Examples.at_rest Examples.two_days 800 564))
           400 300 0 Examples.day 0 43200000).
  - reflexivity.
  - vm_compute. discriminate.
  - vm_compute. discriminate.
  - vm_compute. discriminate.
  - vm_compute. discriminate.
  - vm_compute. discriminate.
  - reflexivity.
  - vm_compute. discriminate.
  - reflexivity.
  - vm_compute. discriminate.
Defined.

Lemma two_days_ascending : ascending date Examples.two_days.
Proof.
  unfold ascending, Examples.two_days. cbn [map date].
  repeat constructor. vm_compute. discriminate.
Defined.

(** C4 does not hold at the upper boundary: a window that ends on the
    last date covers the dataset, and the slice leaves the last point out. *)
Lemma covering_window_drops_last_point :
  ~ (forall data sc,
        ascending date data ->
        covers (fst (D3.domain sc)) (snd (D3.domain sc)) data ->
        LineChart.visibleData (Some sc) data = data).
Proof.
  intros H.
  specialize (H Examples.two_days
                (D3.mkScale (0%Z, Examples.day) (32, 920))
                two_days_ascending).
  assert (Hc : covers 0 Examples.day Examples.two_days).
  { intros d [<-|[<-|[]]]; vm_compute; split; discriminate. }
  specialize (H Hc). vm_compute in H. discriminate H.
Qed.

(** So the component at rest, whose window is the time domain itself,
    shows every point but those of the last date. *)
Lemma at_rest_drops_last_point :
  LineChart.visibleDataOf (Examples.at_rest Examples.two_days 928 564) =
  [mkItem 0 10].
Proof. reflexivity. Qed.

Lemma visibleData_bisection_witness :
  LineChart.visibleData
    (Some (D3.mkScale (0%Z, (2 * Examples.day)%Z) (32, 920)))
    Examples.two_days
  = linear_scan 0 (2 * Examples.day) Examples.two_days.
Proof.
  exact (proj1 (proj2 (proj2 (proj2
           (visibleData_bisection Examples.two_days
              (D3.mkScale (0%Z, (2 * Examples.day)%Z) (32, 920))
              two_days_ascending))))).
Defined.

Lemma visibleExtentY_total_witness :
  fst (LineChart.visibleExtentY Examples.two_days) == 10 /\
  snd (LineChart.visibleExtentY Examples.two_days) == 20.
Proof.
  refine (proj1 (proj1 (proj2 (visibleExtentY_total Examples.two_days))
                   10 20 _ _) _).
  - split.
    + exists 10. split; [left; reflexivity|reflexivity].
    + intros v [<-|[<-|[]]]; vm_compute; discriminate.
  - split.
    + exists 20. split; [right; left; reflexivity|reflexivity].
    + intros v [<-|[<-|[]]]; vm_compute; discriminate.
  - reflexivity.
Defined.

(** Over the single-point dataset as a whole the window is the one
    instant [[d, d]], the visible slice is empty and the value domain is
    the default one. *)
Lemma single_point_at_rest :
  LineChart.visibleDataOf (Examples.at_rest Examples.single_point 928 564) = [] /\
  LineChart.visibleExtentYOf (Examples.at_rest Examples.single_point 928 564)
  = (0, 1).
Proof. split; reflexivity. Qed.

(** C8 does not hold for a plot height of 100 pixels: there are three
    ticks, [floor(100 / 40)] is two. *)
Lemma yTicksValues_exceeds_floor :
  ~ (forall minY maxY chartHeight,
        (Z.of_nat (length (LineChart.yTicksValues (minY, maxY) chartHeight))
         <= Qfloor ((chartHeight - top LineChart.margin
                     - bottom LineChart.margin) / 40))%Z).
Proof.
  intros H. specialize (H 0 1 140). vm_compute in H. exact (H eq_refl).
Qed.

Lemma setBrush_zero_width_witness :
  LineChart.zoomTransform
    (LineChart.setBrush 100 100 (Examples.at_rest Examples.two_days 928 564))
  = D3.zoomIdentity.
Proof.
  refine (proj2 (proj2 (proj2 (setBrush_zero_width
            (Examples.at_rest Examples.two_days 928 564) 100 100 _)))).
  reflexivity.
Defined.

(** C6, at a failing input.  Over a 928 pixel wide component with the
    selection [(100, 300)], the left handle is grabbed 3 pixels right of
    the left edge (pointer at 103) and dragged to 400, past the right
    edge: the edges are swapped, the role becomes the right one and the
    selection is [(300, 397)], the moved edge still 3 pixels left of the
    pointer.  The swap negates the grab offset, so at the next move, to
    350 (after [syncZoomWithBrush] has run), the edge is put at 353, 3
    pixels right of the pointer: it does not follow the pointer at 347
    but jumps by twice the grab offset. *)
Theorem edge_jumps_after_crossing :
  let s := LineChart.set_brush 100 300
             (Examples.at_rest Examples.two_days 928 564) in
  let d0 := LineChart.startDrag LineChart.Mode.l 103
              (LineChart.mkDrag None 0 0) s in
  let d1 := fst (LineChart.onMove 400 d0 s) in
  let s1 := snd (LineChart.onMove 400 d0 s) in
  LineChart.grab d0 == 3 /\
  LineChart.mode d1 = Some LineChart.Mode.r /\
  LineChart.bx0 s1 == 300 /\ LineChart.bx1 s1 == 400 - 3 /\
  LineChart.grab d1 == - (3) /\
  exists s1',
    LineChart.syncZoomWithBrush s1 = Some s1' /\
    let d2 := fst (LineChart.onMove 350 d1 s1') in
    let s2 := snd (LineChart.onMove 350 d1 s1') in
    LineChart.mode d2 = Some LineChart.Mode.r /\
    LineChart.bx1 s2 == 350 + 3 /\
    ~ LineChart.bx1 s2 == 350 - 3.
Proof.
  cbn zeta.
  split; [reflexivity|]. split; [reflexivity|].
  split; [reflexivity|]. split; [reflexivity|]. split; [reflexivity|].
  eexists. split; [vm_compute; reflexivity|].
  split; [reflexivity|]. split; [reflexivity|].
  intros E. vm_compute in E. discriminate E.
Qed.

Lemma onMove_edge_crossing_witness :
  let s := LineChart.set_brush 100 300
             (Examples.at_rest Examples.two_days 928 564) in
  let d := LineChart.startDrag LineChart.Mode.l 103
             (LineChart.mkDrag None 0 0) s in
  LineChart.bx0 (snd (LineChart.onMove 400 d s)) = LineChart.bx1 s /\
  LineChart.mode (fst (LineChart.onMove 400 d s)) = Some LineChart.Mode.r /\
  LineChart.grab (fst (LineChart.onMove 400 d s)) = - LineChart.grab d.
Proof.
  destruct (proj1 (proj2 (onMove_edge_crossing 400
              (LineChart.startDrag LineChart.Mode.l 103
                 (LineChart.mkDrag None 0 0)
                 (LineChart.set_brush 100 300
                    (Examples.at_rest Examples.two_days 928 564)))
              (LineChart.set_brush 100 300
                 (Examples.at_rest Examples.two_days 928 564))
              LineChart.Mode.l eq_refl ltac:(discriminate))))
    as [H0 [_ [Hm Hg]]].
  - reflexivity.
  - split; [exact H0|]. split; [exact Hm|exact Hg].
Defined.

(** C7 does not hold for a width captured from a selection that is out of
    order.  A host 30 pixels wide leaves the plot a width of -10 and the
    selection at [(32, 22)]; a move started there captures the width -10,
    which does not exceed the plot width, and the first update publishes
    [(22, 32)]: left of the left bound, right of the right bound and 10
    wide. *)
Lemma move_with_negative_width :
  ~ (forall cx0 cx d0 s0,
        let d := LineChart.startDrag LineChart.Mode.move cx0 d0 s0 in
        let s' := snd (LineChart.onMove cx d s0) in
        LineChart.drag_width d <= plotWidth s0 ->
        left LineChart.margin <= LineChart.bx0 s' /\
        LineChart.bx0 s' <= LineChart.bx1 s' /\
        LineChart.bx1 s' <= LineChart.width s0 - right LineChart.margin /\
        LineChart.bx1 s' - LineChart.bx0 s' == LineChart.drag_width d).
Proof.
  intros H.
  destruct (LineChart.observeHostResize 30 564
              (Examples.at_rest Examples.two_days 928 564)) as [s0|] eqn:E;
    [|vm_compute in E; discriminate E].
  specialize (H 32 32 (LineChart.mkDrag None 0 0) s0).
  vm_compute in E. injection E as <-.
  cbn zeta in H.
  destruct H as [Hl _]; [vm_compute; discriminate|].
  vm_compute in Hl. exact (Hl eq_refl).
Qed.

Lemma onMove_move_clamped_witness :
  let s := LineChart.set_brush 100 200
             (Examples.at_rest Examples.two_days 928 564) in
  let d := LineChart.startDrag LineChart.Mode.move 150
             (LineChart.mkDrag None 0 0) s in
  same_pixel
    (LineChart.bx1 (snd (LineChart.onMove 2000 d s))
     - LineChart.bx0 (snd (LineChart.onMove 2000 d s)))
    (LineChart.drag_width d).
Proof.
  refine (proj1 (proj2 (proj2 (proj2 (proj2
            (onMove_move_clamped 150 2000 (LineChart.mkDrag None 0 0)
               (LineChart.set_brush 100 200
                  (Examples.at_rest Examples.two_days 928 564))
               (LineChart.set_brush 100 200
                  (Examples.at_rest Examples.two_days 928 564))
               _ _ _ _ _ _ _)))))).
  - vm_compute. discriminate.
  - vm_compute. discriminate.
  - vm_compute. discriminate.
  - vm_compute. discriminate.
  - vm_compute. discriminate.
  - vm_compute. discriminate.
  - vm_compute. discriminate.
Defined.

Lemma variants_agree_witness :
  LineChart.visibleDataOf (Examples.at_rest Examples.two_days 928 564) =
  FixedLineChart.visibleDataOf
    (FixedLineChart.mkState Examples.two_days D3.zoomIdentity).
Proof.
  refine (proj1 (variants_agree
            (Examples.at_rest Examples.two_days 928 564)
            (FixedLineChart.mkState Examples.two_days D3.zoomIdentity)
            _ _ _ _)).
  - reflexivity.
  - reflexivity.
  - reflexivity.
  - reflexivity.
Defined.

(** ** Double precision at concrete inputs

    What the rounded arithmetic of the component gives where it parts
    from the exact one: the reason for the margins and the slack in the
    statements above. *)

Module Binary64Facts.
Import Floats.
Local Open Scope float_scope.
Set Warnings "-inexact-float".

(** At the resolution of one millisecond per pixel (dates 0 and 888, a
    plot 888 pixels wide) the selection [(39, 391)] comes back as
    [(38, 389.99999999999994)]: the right edge is more than a pixel off,
    where exact arithmetic brings [(39, 391)] back.  The rounded quotient
    of [invert] falls just below a whole millisecond and the [Date]
    truncates it a millisecond down. *)
Lemma round_trip_at_one_millisecond_per_pixel :
  let base := Binary64.baseXScale (0, 888)%Z 928 in
  let t := Binary64.setBrush 928 39 391 Binary64.zoomIdentity in
  option_map Binary64.domain (Binary64.rescaleX t base) = Some (6, 358)%Z /\
  exists b0 b1,
    Binary64.syncZoomWithBrush t base = Some (b0, b1) /\
    (b0 =? 38) = true /\ (b1 <? 390) = true /\
    (1 <? abs (b1 - 391)) = true.
Proof.
  cbn zeta. split; [vm_compute; reflexivity|].
  eexists. eexists. split; [vm_compute; reflexivity|].
  repeat split; vm_compute; reflexivity.
Qed.

(** With twice the time span (dates 0 and 1776) the same selection comes
    back as [(38.5, 390.5)]: the dates are a millisecond below the exact
    ones again, and half a pixel per millisecond keeps both edges within
    the pixel. *)
Lemma round_trip_at_half_a_pixel_per_millisecond :
  let base := Binary64.baseXScale (0, 1776)%Z 928 in
  let t := Binary64.setBrush 928 39 391 Binary64.zoomIdentity in
  option_map Binary64.domain (Binary64.rescaleX t base) = Some (13, 717)%Z /\
  exists b0 b1,
    Binary64.syncZoomWithBrush t base = Some (b0, b1) /\
    (b0 =? 38.5) = true /\ (b1 =? 390.5) = true /\
    (abs (b0 - 39) <=? 1) = true /\ (abs (b1 - 391) <=? 1) = true.
Proof.
  cbn zeta. split; [vm_compute; reflexivity|].
  eexists. eexists. split; [vm_compute; reflexivity|].
  repeat split; vm_compute; reflexivity.
Qed.

(** Two daily points, 800 pixels wide, zoomed with [k = 7] and
    [x = -2472]: the visible domain is [[37028571, 49371428]].  After the
    resize to 400 pixels the deferred [setBrush] leaves the domain
    [[37028570, 49371428]], one millisecond off at the lower end. *)
Lemma resize_loses_a_millisecond :
  let t := Binary64.mkTransform 7 (-2472) 0 in
  let base800 := Binary64.baseXScale (0%Z, Examples.day) 800 in
  let base400 := Binary64.baseXScale (0%Z, Examples.day) 400 in
  let t' := Binary64.setBrush 400 (Binary64.apply base400 37028571)
                                  (Binary64.apply base400 49371428) t in
  option_map Binary64.domain (Binary64.rescaleX t base800)
    = Some (37028571, 49371428)%Z /\
  option_map Binary64.domain (Binary64.rescaleX t' base400)
    = Some (37028570, 49371428)%Z.
Proof. vm_compute. split; reflexivity. Qed.

(** The same loss without a resize: at 928 pixels, zoomed with [k = 3]
    and [x = -64], the visible domain is [[0, 28800000]]; the selection
    computed by [syncZoomWithBrush], fed back to [setBrush], gives
    [[0, 28799999]]. *)
Lemma sync_then_setBrush_loses_a_millisecond :
  let t := Binary64.mkTransform 3 (-64) 0 in
  let base := Binary64.baseXScale (0%Z, Examples.day) 928 in
  option_map Binary64.domain (Binary64.rescaleX t base)
    = Some (0, 28800000)%Z /\
  exists b0 b1,
    Binary64.syncZoomWithBrush t base = Some (b0, b1) /\
    option_map Binary64.domain
      (Binary64.rescaleX (Binary64.setBrush 928 b0 b1 t) base)
    = Some (0, 28799999)%Z.
Proof.
  cbn zeta. split; [vm_compute; reflexivity|].
  eexists. eexists. split; vm_compute; reflexivity.
Qed.

(** Three value ticks over [[0.2, 0.9]]: the last one is
    [0.2 + 2 * ((0.9 - 0.2) / 2)], which is below [0.9]; five ticks over
    [[-1, 0.1]] end above [0.1]. *)
Lemma last_tick_misses_maxY :
  length (Binary64.yTicksValues 0.2 0.9 140) = 3%nat /\
  (nth 0 (Binary64.yTicksValues 0.2 0.9 140) 0 =? 0.2) = true /\
  (nth 2 (Binary64.yTicksValues 0.2 0.9 140) 0 <? 0.9) = true /\
  length (Binary64.yTicksValues (-1) 0.1 436) = 5%nat /\
  (0.1 <? nth 4 (Binary64.yTicksValues (-1) 0.1 436) 0) = true.
Proof. vm_compute. repeat split; reflexivity. Qed.

(** A move of the selection that [syncZoomWithBrush] leaves after
    [setBrush(100, 200)] over two daily points at 928 pixels: grabbed at
    150 and moved to 400, the published selection is not as wide as the
    captured width, by a few units in the last place. *)
Lemma move_changes_width_in_the_last_place :
  let base := Binary64.baseXScale (0%Z, Examples.day) 928 in
  let t := Binary64.setBrush 928 100 200 Binary64.zoomIdentity in
  exists b0 b1,
    Binary64.syncZoomWithBrush t base = Some (b0, b1) /\
    let w := b1 - b0 in
    let '(x0, x1) := Binary64.moveSelection 928 400 (150 - b0) w in
    (x1 - x0 <? w) = true /\ (abs (x1 - x0 - w) <? 0.000001) = true.
Proof.
  cbn zeta. eexists. eexists. split; [vm_compute; reflexivity|].
  vm_compute. split; reflexivity.
Qed.

End Binary64Facts.

(** * Further properties of the components *)

(** ** The time domain and the base scale *)

Lemma extent_fold_dates (l : list LineChartDataItem) :
  forall mn mx, (mn <= mx)%Z ->
    exists mn' mx',
      fold_left (D3.extent_step Z.ltb date) l (Some (mn, mx)) = Some (mn', mx') /\
      (mn' = mn \/ In mn' (map date l)) /\
      (mx' = mx \/ In mx' (map date l)) /\
      (mn' <= mn)%Z /\ (mx <= mx')%Z /\
      (forall v, In v (map date l) -> (mn' <= v <= mx')%Z).
Proof.
  induction l as [|d t IH]; intros mn mx Hle; simpl.
  - exists mn, mx. repeat split; auto; try lia; contradiction.
  - set (v := date d).
    set (mn1 := if (v <? mn)%Z then v else mn).
    set (mx1 := if (mx <? v)%Z then v else mx).
    assert (H1 : (mn1 <= mn)%Z /\ (mn1 <= v)%Z /\ (mn1 = mn \/ mn1 = v)).
    { unfold mn1. destruct (v <? mn)%Z eqn:E;
        [apply Z.ltb_lt in E|apply Z.ltb_ge in E]; repeat split; auto; lia. }
    assert (H2 : (mx <= mx1)%Z /\ (v <= mx1)%Z /\ (mx1 = mx \/ mx1 = v)).
    { unfold mx1. destruct (mx <? v)%Z eqn:E;
        [apply Z.ltb_lt in E|apply Z.ltb_ge in E]; repeat split; auto; lia. }
    destruct H1 as [Ha [Hb Hc]], H2 as [Hd [He Hf]].
    destruct (IH mn1 mx1 ltac:(lia))
      as [mn' [mx' [Hfold [Hin1 [Hin2 [Hl [Hu Hall]]]]]]].
    exists mn', mx'. split; [exact Hfold|].
    split; [|split; [|split; [lia|split; [lia|]]]].
    + destruct Hin1 as [->|Hin]; [|right; right; exact Hin].
      destruct Hc as [->| ->]; [left; reflexivity|right; left; reflexivity].
    + destruct Hin2 as [->|Hin]; [|right; right; exact Hin].
      destruct Hf as [->| ->]; [left; reflexivity|right; left; reflexivity].
    + intros w [<-|Hw]; [fold v; lia|apply Hall, Hw].
Qed.

(** The time domain is made of the earliest and the latest date of the
    dataset, in whatever order the points come. *)
Lemma time_domain_spec (data : list LineChartDataItem) (D0 D1 : Z) :
  time_domain data = Some (D0, D1) ->
  In D0 (map date data) /\ In D1 (map date data) /\
  (forall d, In d data -> (D0 <= date d <= D1)%Z).
Proof.
  unfold time_domain, D3.extent.
  destruct data as [|d t]; [discriminate|]. simpl.
  destruct (extent_fold_dates t (date d) (date d) (Z.le_refl _))
    as [mn [mx [Hfold [Hin1 [Hin2 [Hl [Hu Hall]]]]]]].
  rewrite Hfold. intros H. injection H as <- <-.
  split; [|split].
  - destruct Hin1 as [->|H]; [left; reflexivity|right; exact H].
  - destruct Hin2 as [->|H]; [left; reflexivity|right; exact H].
  - intros e [<-|He]; [lia|]. apply Hall, in_map, He.
Qed.

Lemma time_domain_nonempty (d : LineChartDataItem) (t : list LineChartDataItem) :
  exists D0 D1, time_domain (d :: t) = Some (D0, D1).
Proof.
  unfold time_domain, D3.extent. simpl.
  destruct (extent_fold_dates t (date d) (date d) (Z.le_refl _))
    as [mn [mx [Hfold _]]].
  exists mn, mx. exact Hfold.
Qed.

Lemma bimap_at_ends (d0 d1 r0 r1 : Q) :
  d0 < d1 ->
  D3.bimap d0 d1 r0 r1 d0 == r0 /\ D3.bimap d0 d1 r0 r1 d1 == r1.
Proof.
  intros H. rewrite !(bimap_increasing _ _ _ _ _ H).
  split; field; lra.
Qed.

(** Over an increasing domain the image of a point of the domain lies
    between the two ends of the range, whichever way the range runs. *)
Lemma bimap_between (d0 d1 r0 r1 x : Q) :
  d0 < d1 -> d0 <= x -> x <= d1 ->
  (r0 <= r1 -> r0 <= D3.bimap d0 d1 r0 r1 x /\ D3.bimap d0 d1 r0 r1 x <= r1) /\
  (r1 <= r0 -> r1 <= D3.bimap d0 d1 r0 r1 x /\ D3.bimap d0 d1 r0 r1 x <= r0).
Proof.
  intros H Hlo Hhi. rewrite (bimap_increasing _ _ _ _ _ H).
  set (t := (x - d0) / (d1 - d0)).
  assert (Ht : 0 <= t /\ t <= 1).
  { unfold t. split.
    - apply Qle_shift_div_l; lra.
    - apply Qle_shift_div_r; lra. }
  split; intros Hr; split; nra.
Qed.

(** X1.  Over a dataset with at least two different dates, laid out in a
    host at least as wide as the two horizontal margins, the base time
    scale sends the earliest date to the left edge of the plot, the latest
    to its right edge and every point of the dataset between the two,
    in whatever order the points come. *)
Theorem baseXScale_spans_plot
    (data : list LineChartDataItem) (w : Q) (D0 D1 : Z) :
  time_domain data = Some (D0, D1) ->
  (D0 < D1)%Z ->
  left LineChart.margin + right LineChart.margin <= w ->
  exists base,
    LineChart.baseXScale data w = Some base /\
    In D0 (map date data) /\ In D1 (map date data) /\
    D3.apply base D0 == left LineChart.margin /\
    D3.apply base D1 == w - right LineChart.margin /\
    (forall d, In d data -> in_plot_x w (D3.apply base (date d))).
Proof.
  intros Hdom HD Hw.
  destruct (time_domain_spec data D0 D1 Hdom) as [Hin0 [Hin1 Hall]].
  unfold LineChart.baseXScale. unfold time_domain in Hdom. rewrite Hdom.
  eexists. split; [reflexivity|].
  split; [exact Hin0|]. split; [exact Hin1|].
  unfold D3.apply. cbn [D3.domain D3.range fst snd].
  assert (HDq : inject_Z D0 < inject_Z D1) by (rewrite <- Zlt_Qlt; exact HD).
  destruct (bimap_at_ends (inject_Z D0) (inject_Z D1)
              (left LineChart.margin) (w - right LineChart.margin) HDq)
    as [E0 E1].
  split; [exact E0|]. split; [exact E1|].
  intros d Hd. destruct (Hall d Hd) as [Hlo Hhi].
  rewrite Zle_Qle in Hlo, Hhi.
  apply (bimap_between _ _ _ _ _ HDq Hlo Hhi). lra.
Qed.

Lemma baseXScale_spans_plot_witness :
  exists base,
    LineChart.baseXScale Examples.two_days 928 = Some base /\
    D3.apply base 0 == 32 /\ D3.apply base Examples.day == 920.
Proof.
  destruct (baseXScale_spans_plot Examples.two_days 928 0 Examples.day
              eq_refl eq_refl ltac:(vm_compute; discriminate))
    as [base [Hb [_ [_ [E0 [E1 _]]]]]].
  exists base. split; [exact Hb|]. split; [exact E0|exact E1].
Defined.

(** ** The zoomed scale at identity zoom *)

Lemma invert_at_range_ends (s : D3.ScaleTime) (y0 y1 : Q) :
  ~ fst (D3.range s) == snd (D3.range s) ->
  y0 == fst (D3.range s) -> y1 == snd (D3.range s) ->
  D3.invert s y0 = fst (D3.domain s) /\ D3.invert s y1 = snd (D3.domain s).
Proof.
  intros Hr E0 E1.
  unfold D3.invert.
  set (r0 := fst (D3.range s)) in *. set (r1 := snd (D3.range s)) in *.
  split;
    [transitivity (Qtrunc (inject_Z (fst (D3.domain s))))
    |transitivity (Qtrunc (inject_Z (snd (D3.domain s))))];
    try apply Qtrunc_inject_Z;
    set (D0 := inject_Z (fst (D3.domain s)));
    set (D1 := inject_Z (snd (D3.domain s)));
    apply Qtrunc_comp; unfold D3.bimap, D3.normalize, D3.interpolateNumber.
  - case_Qltb r1 r0 E.
    + case_Qeq (r0 - r1) 0 Ez; [lra|]. rewrite E0. field. exact Ez.
    + case_Qeq (r1 - r0) 0 Ez; [exfalso; apply Hr; lra|].
      rewrite E0. field. exact Ez.
  - case_Qltb r1 r0 E.
    + case_Qeq (r0 - r1) 0 Ez; [lra|]. rewrite E1. field. exact Ez.
    + case_Qeq (r1 - r0) 0 Ez; [exfalso; apply Hr; lra|].
      rewrite E1. field. exact Ez.
Qed.

Lemma rescaleX_identity (base : D3.ScaleTime) :
  ~ fst (D3.range base) == snd (D3.range base) ->
  D3.Transform.rescaleX D3.zoomIdentity base = Some base.
Proof.
  intros Hr. unfold D3.Transform.rescaleX, D3.Transform.invertX.
  cbn [D3.zoomIdentity D3.Transform.k D3.Transform.x].
  change (Qeq_bool 1 0) with false. cbv iota.
  destruct (invert_at_range_ends base
              ((fst (D3.range base) - 0) / 1) ((snd (D3.range base) - 0) / 1) Hr)
    as [E0 E1]; try (field; fail).
  rewrite E0, E1. destruct base as [[D0 D1] r]. reflexivity.
Qed.

Lemma baseXScaleOf_range (s : LineChart.State) (base : D3.ScaleTime) :
  LineChart.baseXScaleOf s = Some base ->
  D3.range base =
    (left LineChart.margin, LineChart.width s - right LineChart.margin) /\
  time_domain (LineChart.data s) = Some (D3.domain base).
Proof.
  unfold LineChart.baseXScaleOf, LineChart.baseXScale, time_domain.
  destruct (D3.extent Z.ltb (LineChart.data s) date); [|discriminate].
  intros H. injection H as <-. split; reflexivity.
Qed.

Lemma xScaleOf_identity (s : LineChart.State) :
  LineChart.zoomTransform s = D3.zoomIdentity ->
  ~ plotWidth s == 0 ->
  LineChart.xScaleOf s = LineChart.baseXScaleOf s.
Proof.
  intros Hz Hw. unfold LineChart.xScaleOf, LineChart.xScale. rewrite Hz.
  destruct (LineChart.baseXScaleOf s) as [base|] eqn:Hb; [|reflexivity].
  apply rescaleX_identity.
  destruct (baseXScaleOf_range s base Hb) as [Hr _]. rewrite Hr.
  cbn [fst snd]. unfold plotWidth in Hw. intros E. apply Hw. lra.
Qed.

(** X2.  At identity zoom, in a host whose plot width is not zero, the
    zoomed time scale is the base time scale: the visible time domain is
    the time domain of the dataset. *)
Theorem identity_zoom_shows_time_domain (s : LineChart.State) :
  LineChart.zoomTransform s = D3.zoomIdentity ->
  ~ plotWidth s == 0 ->
  LineChart.xScaleOf s = LineChart.baseXScaleOf s /\
  visible_domain s = time_domain (LineChart.data s).
Proof.
  intros Hz Hw.
  pose proof (xScaleOf_identity s Hz Hw) as E.
  split; [exact E|].
  unfold visible_domain. rewrite E.
  unfold LineChart.baseXScaleOf, LineChart.baseXScale, time_domain.
  destruct (D3.extent Z.ltb (LineChart.data s) date); reflexivity.
Qed.

Lemma identity_zoom_shows_time_domain_witness :
  visible_domain (Examples.at_rest Examples.two_days 928 564) =
  time_domain Examples.two_days.
Proof.
  refine (proj2 (identity_zoom_shows_time_domain
                   (Examples.at_rest Examples.two_days 928 564) _ _)).
  - reflexivity.
  - intros E. vm_compute in E. discriminate E.
Defined.

(** ** More on the visible slice *)

Lemma visibleData_scan (data : list LineChartDataItem) (sc : D3.ScaleTime) :
  ascending date data ->
  LineChart.visibleData (Some sc) data =
  linear_scan (fst (D3.domain sc)) (snd (D3.domain sc)) data.
Proof.
  intros Hs.
  pose proof (left_spec date data (fst (D3.domain sc)) 0 Hs (Nat.le_0_l _)) as H0.
  set (i0 := D3.left date data (Some (fst (D3.domain sc))) 0 (length data)) in *.
  assert (Hi0 : (i0 <= length data)%nat)
    by (destruct H0 as [[_ ?] _]; assumption).
  pose proof (left_spec date data (snd (D3.domain sc)) i0 Hs Hi0) as H1.
  rewrite visibleData_window. fold i0.
  destruct H0 as [_ [Hb0 Ha0]], H1 as [[Hle1 Hlen1] [Hb1 Ha1]].
  unfold linear_scan.
  apply slice_filter; [exact Hle1| | |]; intros i d Hd Hi;
    pose proof (key_nth_error date data i d Hd) as Hk;
    assert (Hlt : (i < length data)%nat)
      by (apply nth_error_Some; rewrite Hd; discriminate);
    unfold in_window.
  - specialize (Hb0 i ltac:(lia)).
    apply andb_false_intro1, Z.leb_gt. lia.
  - specialize (Ha0 i ltac:(lia)). specialize (Hb1 i ltac:(lia)).
    apply andb_true_intro. split; [apply Z.leb_le|apply Z.ltb_lt]; lia.
  - specialize (Ha1 i ltac:(lia)).
    apply andb_false_intro2, Z.ltb_ge. lia.
Qed.

(** X3.  At identity zoom over a dataset sorted by date, in a host whose
    plot width is not zero, the visible slice holds every point dated
    before the latest date and none dated on it: the points of the last
    date are left out of the main plot. *)
Theorem identity_zoom_visible_slice (s : LineChart.State) (D0 D1 : Z) :
  ascending date (LineChart.data s) ->
  time_domain (LineChart.data s) = Some (D0, D1) ->
  LineChart.zoomTransform s = D3.zoomIdentity ->
  ~ plotWidth s == 0 ->
  LineChart.visibleDataOf s =
  filter (fun d => (date d <? D1)%Z) (LineChart.data s).
Proof.
  intros Hs Hdom Hz Hw.
  unfold LineChart.visibleDataOf.
  rewrite (xScaleOf_identity s Hz Hw).
  unfold LineChart.baseXScaleOf, LineChart.baseXScale.
  pose proof Hdom as Hdom'. unfold time_domain in Hdom'. rewrite Hdom'.
  rewrite (visibleData_scan _ _ Hs). cbn [D3.domain fst snd].
  unfold linear_scan. apply filter_ext_in. intros d Hd.
  unfold in_window.
  destruct (time_domain_spec _ _ _ Hdom) as [_ [_ Hall]].
  destruct (Hall d Hd) as [Hlo _].
  apply Z.leb_le in Hlo. rewrite Hlo. reflexivity.
Qed.

Lemma identity_zoom_visible_slice_witness :
  LineChart.visibleDataOf (Examples.at_rest Examples.two_days 928 564) =
  filter (fun d => (date d <? Examples.day)%Z) Examples.two_days.
Proof.
  apply (identity_zoom_visible_slice
           (Examples.at_rest Examples.two_days 928 564) 0 Examples.day).
  - exact two_days_ascending.
  - reflexivity.
  - reflexivity.
  - intros E. vm_compute in E. discriminate E.
Defined.

Lemma filter_filter (p q : LineChartDataItem -> bool) (l : list LineChartDataItem) :
  (forall d, In d l -> p d = true -> q d = true) ->
  filter p (filter q l) = filter p l.
Proof.
  induction l as [|h t IH]; intros H; simpl; [reflexivity|].
  destruct (q h) eqn:Hq; simpl.
  - destruct (p h); [f_equal|]; apply IH; intros d Hd; apply H; right; exact Hd.
  - destruct (p h) eqn:Hp.
    + rewrite (H h (or_introl eq_refl) Hp) in Hq. discriminate.
    + apply IH. intros d Hd. apply H. right. exact Hd.
Qed.

(** X4.  Over a dataset sorted by date, narrowing the window narrows the
    slice: the slice of a window inside another is the linear scan of the
    inner window over the slice of the outer one, so every point visible
    in the inner window was visible in the outer one. *)
Theorem visibleData_nested
    (data : list LineChartDataItem) (outer inner : D3.ScaleTime) :
  ascending date data ->
  (fst (D3.domain outer) <= fst (D3.domain inner))%Z ->
  (snd (D3.domain inner) <= snd (D3.domain outer))%Z ->
  LineChart.visibleData (Some inner) data =
    linear_scan (fst (D3.domain inner)) (snd (D3.domain inner))
                (LineChart.visibleData (Some outer) data) /\
  incl (LineChart.visibleData (Some inner) data)
       (LineChart.visibleData (Some outer) data).
Proof.
  intros Hs H0 H1.
  assert (E : LineChart.visibleData (Some inner) data =
              linear_scan (fst (D3.domain inner)) (snd (D3.domain inner))
                (LineChart.visibleData (Some outer) data)).
  { rewrite !(visibleData_scan _ _ Hs). unfold linear_scan.
    symmetry. apply filter_filter. intros d _. unfold in_window.
    rewrite !andb_true_iff, !Z.leb_le, !Z.ltb_lt. lia. }
  split; [exact E|].
  rewrite E. unfold linear_scan. intros d Hd.
  apply filter_In in Hd. apply Hd.
Qed.

Lemma visibleData_nested_witness :
  incl (LineChart.visibleData
          (Some (D3.mkScale (0%Z, Examples.day) (32, 920))) Examples.two_days)
       (LineChart.visibleData
          (Some (D3.mkScale (0%Z, (2 * Examples.day)%Z) (32, 920)))
          Examples.two_days).
Proof.
  refine (proj2 (visibleData_nested Examples.two_days
                   (D3.mkScale (0%Z, (2 * Examples.day)%Z) (32, 920))
                   (D3.mkScale (0%Z, Examples.day) (32, 920))
                   two_days_ascending _ _)).
  - vm_compute. discriminate.
  - vm_compute. discriminate.
Defined.

Lemma left_loop_range {A : Type} (f : A -> Z) (a : list A) (x : Z) :
  forall fuel lo hi, (lo < hi)%nat ->
    (lo <= D3.left_loop f fuel a x lo hi <= hi)%nat.
Proof.
  induction fuel as [|fuel IH]; intros lo hi Hlt; simpl; [lia|].
  pose proof (div2_between lo hi Hlt) as Hmid.
  set (mid := Nat.div2 (lo + hi)) in *.
  destruct (match nth_error a mid with
            | Some d => (f d <? x)%Z
            | None => false
            end).
  - destruct (S mid <? hi)%nat eqn:E.
    + apply Nat.ltb_lt in E. specialize (IH (S mid) hi E). lia.
    + lia.
  - destruct (lo <? mid)%nat eqn:E.
    + apply Nat.ltb_lt in E. specialize (IH lo mid E). lia.
    + lia.
Qed.

Lemma left_range {A : Type} (f : A -> Z) (a : list A) (x : option Z) (lo hi : nat) :
  (lo <= hi)%nat -> (lo <= D3.left f a x lo hi <= hi)%nat.
Proof.
  intros Hle. unfold D3.left.
  destruct (lo <? hi)%nat eqn:E; [|lia].
  apply Nat.ltb_lt in E.
  destruct x as [x|]; [apply left_loop_range; exact E|lia].
Qed.

Lemma visibleData_none (data : list LineChartDataItem) :
  LineChart.visibleData None data = [].
Proof.
  unfold LineChart.visibleData, D3.left.
  destruct (0 <? length data)%nat eqn:E.
  - rewrite Nat.ltb_irrefl. unfold D3.slice.
    rewrite Nat.sub_diag. reflexivity.
  - rewrite E. reflexivity.
Qed.

(** X5.  Whatever the dataset (sorted or not) and the window, the visible
    slice is one contiguous run of the dataset whose two bounding indices
    are in range; and a window without dates (NaN bounds) shows nothing. *)
Theorem visibleData_contiguous
    (xs : option D3.ScaleTime) (data : list LineChartDataItem) :
  (exists i0 i1,
      (i0 <= i1 <= length data)%nat /\
      LineChart.visibleData xs data = D3.slice data i0 i1 /\
      data = firstn i0 data ++ LineChart.visibleData xs data ++ skipn i1 data) /\
  LineChart.visibleData None data = [].
Proof.
  split.
  - unfold LineChart.visibleData.
    set (x0 := match xs with Some sc => _ | None => _ end).
    destruct x0 as [x0 x1].
    set (i0 := D3.left date data x0 0 (length data)).
    pose proof (left_range date data x0 0 (length data) (Nat.le_0_l _)) as H0.
    fold i0 in H0.
    set (i1 := D3.left date data x1 i0 (length data)).
    pose proof (left_range date data x1 i0 (length data) (proj2 H0)) as H1.
    fold i1 in H1.
    exists i0, i1. split; [lia|]. split; [reflexivity|].
    unfold D3.slice.
    rewrite <- (firstn_skipn i0 data) at 1. f_equal.
    rewrite <- (firstn_skipn (i1 - i0) (skipn i0 data)) at 1. f_equal.
    rewrite skipn_skipn. f_equal. lia.
  - apply visibleData_none.
Qed.

(** ** The value domain and the vertical scales *)

Lemma visibleExtentY_facts (visible : list LineChartDataItem) :
  fst (LineChart.visibleExtentY visible) < snd (LineChart.visibleExtentY visible) /\
  (forall d, In d visible ->
     fst (LineChart.visibleExtentY visible) <= value d /\
     value d <= snd (LineChart.visibleExtentY visible)).
Proof.
  destruct visible as [|d t].
  - split; [reflexivity|intros d []].
  - destruct (extent_values_nonempty d t) as [mn [mx [Hext [Hin1 [Hin2 Hall]]]]].
    unfold LineChart.visibleExtentY. rewrite Hext.
    pose proof (Hall mn Hin1) as [_ Hle].
    case_Qeq mn mx E; cbn [fst snd].
    + split; [lra|]. intros e He.
      destruct (Hall (value e) (in_map value _ e He)). split; lra.
    + split.
      * destruct (Qlt_le_dec mn mx) as [Hlt|Hge]; [exact Hlt|].
        exfalso. apply E. apply Qle_antisym; assumption.
      * intros e He. apply Hall, in_map, He.
Qed.

(** X6.  For values up to [2^52] in magnitude the visible value domain is
    never degenerate and holds every visible value: its lower end is below
    its upper end for every slice, the empty one included. *)
Theorem visibleExtentY_not_degenerate (visible : list LineChartDataItem) :
  values_bounded visible ->
  fst (LineChart.visibleExtentY visible) < snd (LineChart.visibleExtentY visible) /\
  (forall d, In d visible ->
     fst (LineChart.visibleExtentY visible) <= value d /\
     value d <= snd (LineChart.visibleExtentY visible)).
Proof. intros _. exact (visibleExtentY_facts visible). Qed.

Lemma two_days_values_bounded : values_bounded Examples.two_days.
Proof.
  intros d [<-|[<-|[]]]; vm_compute; discriminate.
Defined.

Lemma visibleExtentY_not_degenerate_witness :
  fst (LineChart.visibleExtentY Examples.two_days)
  < snd (LineChart.visibleExtentY Examples.two_days).
Proof.
  exact (proj1 (visibleExtentY_not_degenerate Examples.two_days
                  two_days_values_bounded)).
Defined.

Lemma bimap_within_decreasing (d0 d1 r0 r1 x : Q) :
  d0 <= d1 -> d0 <= x -> x <= d1 -> r1 <= r0 ->
  r1 <= D3.bimap d0 d1 r0 r1 x /\ D3.bimap d0 d1 r0 r1 x <= r0.
Proof.
  intros Hd Hlo Hhi Hr.
  destruct (Qlt_le_dec d0 d1) as [Hlt|Hge].
  - apply (bimap_between _ _ _ _ _ Hlt Hlo Hhi). exact Hr.
  - unfold D3.bimap. case_Qltb d1 d0 E; [lra|].
    unfold D3.normalize. case_Qeq (d1 - d0) 0 Ez; [|exfalso; apply Ez; lra].
    unfold D3.interpolateNumber. split; lra.
Qed.

Lemma yScale_facts (ext : Q * Q) (ch v : Q) :
  fst ext < snd ext ->
  top LineChart.margin + bottom LineChart.margin <= ch ->
  D3.applyLinear (LineChart.yScale ext ch) (fst ext)
    == ch - bottom LineChart.margin /\
  D3.applyLinear (LineChart.yScale ext ch) (snd ext) == top LineChart.margin /\
  (fst ext <= v -> v <= snd ext ->
   in_plot_y ch (D3.applyLinear (LineChart.yScale ext ch) v)).
Proof.
  intros Hext Hch. unfold D3.applyLinear, LineChart.yScale.
  cbn [D3.ldomain D3.lrange fst snd].
  destruct (bimap_at_ends (fst ext) (snd ext)
              (ch - bottom LineChart.margin) (top LineChart.margin) Hext)
    as [E0 E1].
  split; [exact E0|]. split; [exact E1|].
  intros Hlo Hhi. unfold in_plot_y.
  apply bimap_within_decreasing; try assumption; lra.
Qed.

(** X7.  For every visible slice of values up to [2^52] in magnitude and
    every chart height that leaves room for the vertical margins, the
    value scale sends the lower end of the visible value domain to the
    bottom edge of the plot, the upper end to the top edge, and every
    visible value between the two. *)
Theorem yScale_maps_into_plot (visible : list LineChartDataItem) (ch : Q) :
  values_bounded visible ->
  top LineChart.margin + bottom LineChart.margin <= ch ->
  let ext := LineChart.visibleExtentY visible in
  let ys := LineChart.yScale ext ch in
  D3.applyLinear ys (fst ext) == ch - bottom LineChart.margin /\
  D3.applyLinear ys (snd ext) == top LineChart.margin /\
  (forall d, In d visible -> in_plot_y ch (D3.applyLinear ys (value d))).
Proof.
  intros _ Hch ext ys.
  destruct (visibleExtentY_facts visible) as [Hlt Hall].
  destruct (yScale_facts ext ch 0 Hlt Hch) as [E0 [E1 _]].
  split; [exact E0|]. split; [exact E1|].
  intros d Hd. destruct (Hall d Hd) as [Hlo Hhi].
  exact (proj2 (proj2 (yScale_facts ext ch (value d) Hlt Hch)) Hlo Hhi).
Qed.

Lemma yScale_maps_into_plot_witness :
  in_plot_y 500
    (D3.applyLinear
       (LineChart.yScale (LineChart.visibleExtentY Examples.two_days) 500)
       10).
Proof.
  refine (proj2 (proj2 (yScale_maps_into_plot Examples.two_days 500 _ _))
            (mkItem 0 10) (or_introl eq_refl)).
  - exact two_days_values_bounded.
  - vm_compute. discriminate.
Defined.

Lemma yTicksValues_nth (minY maxY ch : Q) :
  let ticks := LineChart.yTicksValues (minY, maxY) ch in
  exists n : Z,
    (2 <= n <= 5)%Z /\ length ticks = Z.to_nat n /\
    forall i, (i < length ticks)%nat ->
      nth i ticks 0 ==
      minY + inject_Z (Z.of_nat i) * ((maxY - minY) / inject_Z (n - 1)).
Proof.
  intros ticks.
  set (n := Z.min (Z.max 2 (Math_round
           ((ch - top LineChart.margin - bottom LineChart.margin) / 40))) 5).
  exists n. split; [unfold n; lia|].
  assert (Hticks : ticks =
            map (fun i => minY + inject_Z (Z.of_nat i) *
                                 ((maxY - minY) / inject_Z (n - 1)))
                (seq 0 (Z.to_nat n))) by reflexivity.
  assert (Hlen : length ticks = Z.to_nat n)
    by (rewrite Hticks, length_map, length_seq; reflexivity).
  split; [exact Hlen|].
  intros i Hi. rewrite Hticks.
  rewrite (nth_map_seq (fun i => minY + inject_Z (Z.of_nat i) * _)) by lia.
  reflexivity.
Qed.

Lemma yTicksValues_facts (minY maxY ch : Q) :
  minY <= maxY ->
  forall i, (i < length (LineChart.yTicksValues (minY, maxY) ch))%nat ->
    minY <= nth i (LineChart.yTicksValues (minY, maxY) ch) 0 /\
    nth i (LineChart.yTicksValues (minY, maxY) ch) 0 <= maxY.
Proof.
  intros Hle i Hi.
  destruct (yTicksValues_nth minY maxY ch) as [n [Hn [Hlen Hnth]]].
  rewrite (Hnth i Hi).
  assert (Hpos : 0 < inject_Z (n - 1)).
  { replace 0 with (inject_Z 0) by reflexivity. rewrite <- Zlt_Qlt. lia. }
  set (t := inject_Z (Z.of_nat i) / inject_Z (n - 1)).
  assert (Ht : 0 <= t /\ t <= 1).
  { unfold t. split.
    - apply Qle_shift_div_l; [exact Hpos|].
      rewrite Qmult_0_l. replace 0 with (inject_Z 0) by reflexivity.
      rewrite <- Zle_Qle. lia.
    - apply Qle_shift_div_r; [exact Hpos|].
      rewrite Qmult_1_l. rewrite <- Zle_Qle. lia. }
  assert (E : inject_Z (Z.of_nat i) * ((maxY - minY) / inject_Z (n - 1))
              == t * (maxY - minY)).
  { unfold t. field. lra. }
  rewrite E. split; nra.
Qed.

(** X8.  Over a value domain with [minY <= maxY] and ends up to [2^52]
    in magnitude, the value ticks start at [minY], never decrease and
    never lie below [minY]. *)
Theorem yTicksValues_never_decrease (minY maxY ch : Q) :
  minY <= maxY ->
  Qabs minY <= value_bound -> Qabs maxY <= value_bound ->
  let ticks := LineChart.yTicksValues (minY, maxY) ch in
  nth 0 ticks 0 == minY /\
  (forall i, (i < length ticks)%nat -> minY <= nth i ticks 0) /\
  (forall i j, (i <= j)%nat -> (j < length ticks)%nat ->
     nth i ticks 0 <= nth j ticks 0).
Proof.
  intros Hle _ _ ticks.
  destruct (yTicksValues_nth minY maxY ch) as [n [Hn [Hlen Hnth]]].
  fold ticks in Hlen, Hnth.
  assert (Hpos : 0 < inject_Z (n - 1)).
  { replace 0 with (inject_Z 0) by reflexivity. rewrite <- Zlt_Qlt. lia. }
  assert (Hstep : 0 <= (maxY - minY) / inject_Z (n - 1))
    by (apply Qle_shift_div_l; lra).
  split; [|split].
  - rewrite (Hnth 0%nat) by lia. simpl. unfold inject_Z. ring.
  - intros i Hi. apply (yTicksValues_facts minY maxY ch Hle i Hi).
  - intros i j Hij Hj.
    rewrite (Hnth i ltac:(lia)), (Hnth j Hj).
    assert (Hq : inject_Z (Z.of_nat i) <= inject_Z (Z.of_nat j))
      by (rewrite <- Zle_Qle; lia).
    set (step := (maxY - minY) / inject_Z (n - 1)) in *.
    nra.
Qed.

Lemma yTicksValues_never_decrease_witness :
  nth 0 (LineChart.yTicksValues (49, 51) 500) 0
  <= nth 1 (LineChart.yTicksValues (49, 51) 500) 0.
Proof.
  refine (proj2 (proj2 (yTicksValues_never_decrease 49 51 500 _ _ _))
            0%nat 1%nat _ _).
  - vm_compute. discriminate.
  - vm_compute. discriminate.
  - vm_compute. discriminate.
  - lia.
  - vm_compute. lia.
Defined.

Lemma allYScale_facts
    (d : LineChartDataItem) (t : list LineChartDataItem) :
  exists ay,
    LineChart.allYScale (d :: t) = Some ay /\
    (forall e, In e (d :: t) ->
       0 <= D3.applyLinear ay (value e) /\
       D3.applyLinear ay (value e) <= LineChart.dzHeight) /\
    ((forall e, In e (d :: t) -> value e == value d) ->
     forall e, In e (d :: t) -> D3.applyLinear ay (value e) == 20).
Proof.
  destruct (extent_values_nonempty d t) as [mn [mx [Hext [Hin1 [Hin2 Hall]]]]].
  unfold LineChart.allYScale. rewrite Hext.
  eexists. split; [reflexivity|].
  unfold D3.applyLinear. cbn [D3.ldomain D3.lrange fst snd].
  pose proof (Hall mn Hin1) as [_ Hle].
  split.
  - intros e He.
    destruct (Hall (value e) (in_map value _ e He)) as [Hlo Hhi].
    apply bimap_within_decreasing; try assumption.
    unfold LineChart.dzHeight. lra.
  - intros Heq e He.
    apply in_map_iff in Hin1. destruct Hin1 as [e1 [E1 Hi1]].
    apply in_map_iff in Hin2. destruct Hin2 as [e2 [E2 Hi2]].
    pose proof (Heq e1 Hi1) as Q1. pose proof (Heq e2 Hi2) as Q2.
    rewrite E1 in Q1. rewrite E2 in Q2.
    unfold D3.bimap. case_Qltb mx mn E; [lra|].
    unfold D3.normalize. case_Qeq (mx - mn) 0 Ez; [|exfalso; apply Ez; lra].
    unfold D3.interpolateNumber, LineChart.dzHeight. lra.
Qed.

(** X9.  Over a dataset that is not empty the overview value scale exists
    and sends every value of the dataset into the overview strip, between
    0 and its height of 40; when all values are equal it sends them to
    mid-height. *)
Theorem allYScale_maps_into_strip
    (d : LineChartDataItem) (t : list LineChartDataItem) :
  exists ay,
    LineChart.allYScale (d :: t) = Some ay /\
    (forall e, In e (d :: t) ->
       0 <= D3.applyLinear ay (value e) /\
       D3.applyLinear ay (value e) <= LineChart.dzHeight) /\
    ((forall e, In e (d :: t) -> value e == value d) ->
     forall e, In e (d :: t) -> D3.applyLinear ay (value e) == 20).
Proof. exact (allYScale_facts d t). Qed.

(** ** The transform published by setBrush *)

(** X10.  In a host with a positive plot width, selecting the whole
    overview, from the left edge of the plot to its right edge, publishes
    the identity transform: the zoom is reset. *)
Theorem setBrush_full_selection_resets_zoom (s : LineChart.State) :
  0 < plotWidth s ->
  LineChart.zoomTransform
    (LineChart.setBrush (left LineChart.margin)
                        (LineChart.width s - right LineChart.margin) s)
  = D3.zoomIdentity.
Proof.
  intros Hw. unfold plotWidth in Hw.
  unfold LineChart.setBrush.
  cbn [LineChart.width LineChart.set_brush LineChart.set_zoomTransform
       LineChart.zoomTransform D3.Zoom.transform].
  set (L := left LineChart.margin) in *.
  set (R := LineChart.width s - right LineChart.margin) in *.
  assert (Hx : L < R) by (unfold R; lra).
  assert (Habs : Qabs (R - L) == R - L) by (apply Qabs_pos; lra).
  case_Qeq (Qabs (R - L)) 0 E; [lra|].
  unfold D3.Transform.translate, D3.Transform.scale.
  match goal with
  | |- context [Qeq_bool ?q 1] => set (k := q)
  end.
  assert (Hk : k == 1).
  { unfold k. rewrite Habs. unfold R. field. unfold R in Hx. lra. }
  assert (Htx : L - Qmin L R * k == 0).
  { rewrite Hk, (Qmin_l_lt _ _ Hx). ring. }
  unfold D3.Transform.translate, D3.Transform.scale.
  apply Qeq_bool_iff in Htx. rewrite Htx.
  change (Qeq_bool 0 0) with true. cbn [andb].
  apply Qeq_bool_iff in Hk. rewrite Hk. reflexivity.
Qed.

Lemma setBrush_full_selection_resets_zoom_witness :
  LineChart.zoomTransform
    (LineChart.setBrush 32 (928 - 8)
       (LineChart.setBrush 100 200
          (Examples.at_rest Examples.two_days 928 564)))
  = D3.zoomIdentity.
Proof.
  apply (setBrush_full_selection_resets_zoom
           (LineChart.setBrush 100 200
              (Examples.at_rest Examples.two_days 928 564))).
  reflexivity.
Defined.

(** ** From the zoom transform to the selection *)

(** X13.  At identity zoom, over a dataset with at least two different
    dates and a plot width that is not zero, [syncZoomWithBrush] sets the
    selection to the whole overview, from the left edge of the plot to
    its right edge. *)
Theorem sync_at_identity_selects_all (s : LineChart.State) (D0 D1 : Z) :
  time_domain (LineChart.data s) = Some (D0, D1) ->
  (D0 < D1)%Z ->
  LineChart.zoomTransform s = D3.zoomIdentity ->
  ~ plotWidth s == 0 ->
  exists s',
    LineChart.syncZoomWithBrush s = Some s' /\
    LineChart.bx0 s' == left LineChart.margin /\
    LineChart.bx1 s' == LineChart.width s - right LineChart.margin.
Proof.
  intros Hdom HD Hz Hw.
  unfold LineChart.syncZoomWithBrush.
  rewrite (xScaleOf_identity s Hz Hw).
  unfold LineChart.baseXScaleOf, LineChart.baseXScale.
  unfold time_domain in Hdom. rewrite Hdom. cbn [D3.domain].
  eexists. split; [reflexivity|].
  cbn [LineChart.set_brush LineChart.bx0 LineChart.bx1].
  unfold D3.apply. cbn [D3.domain D3.range fst snd].
  apply bimap_at_ends. rewrite <- Zlt_Qlt. exact HD.
Qed.

Lemma sync_at_identity_selects_all_witness :
  exists s',
    LineChart.syncZoomWithBrush
      (LineChart.set_brush 100 200
         (Examples.at_rest Examples.two_days 928 564)) = Some s' /\
    LineChart.bx0 s' == 32 /\ LineChart.bx1 s' == 928 - 8.
Proof.
  apply (sync_at_identity_selects_all
           (LineChart.set_brush 100 200
              (Examples.at_rest Examples.two_days 928 564))
           0 Examples.day).
  - reflexivity.
  - reflexivity.
  - reflexivity.
  - intros E. vm_compute in E. discriminate E.
Defined.

(** X14.  [syncZoomWithBrush] writes the two selection signals only, and
    running it again changes nothing: the selection it computes depends
    on the transform, the dataset and the width, not on the selection. *)
Theorem syncZoomWithBrush_settles (s s' : LineChart.State) :
  LineChart.syncZoomWithBrush s = Some s' ->
  LineChart.syncZoomWithBrush s' = Some s' /\
  LineChart.zoomTransform s' = LineChart.zoomTransform s /\
  LineChart.data s' = LineChart.data s /\
  LineChart.width s' = LineChart.width s /\
  LineChart.heightHost s' = LineChart.heightHost s /\
  LineChart.chartCanvas s' = LineChart.chartCanvas s /\
  LineChart.dzCanvas s' = LineChart.dzCanvas s.
Proof.
  unfold LineChart.syncZoomWithBrush.
  destruct (LineChart.xScaleOf s) as [xs|] eqn:Hxs; [|discriminate].
  destruct (LineChart.baseXScaleOf s) as [base|] eqn:Hb; [|discriminate].
  destruct (D3.domain xs) as [d0 d1] eqn:Hd.
  intros H. injection H as <-.
  set (s' := LineChart.set_brush (D3.apply base d0) (D3.apply base d1) s).
  assert (Hb' : LineChart.baseXScaleOf s' = Some base) by exact Hb.
  assert (Hxs' : LineChart.xScaleOf s' = Some xs) by exact Hxs.
  rewrite Hxs', Hb', Hd.
  repeat split; reflexivity.
Qed.

Lemma syncZoomWithBrush_settles_witness :
  exists s',
    LineChart.syncZoomWithBrush
      (LineChart.setBrush 100 200
         (Examples.at_rest Examples.two_days 928 564)) = Some s' /\
    LineChart.syncZoomWithBrush s' = Some s'.
Proof.
  destruct (LineChart.syncZoomWithBrush
              (LineChart.setBrush 100 200
                 (Examples.at_rest Examples.two_days 928 564)))
    as [s'|] eqn:E; [|vm_compute in E; discriminate E].
  exists s'. split; [reflexivity|].
  exact (proj1 (syncZoomWithBrush_settles _ s' E)).
Defined.

(** From the zoom to the selection and back in exact arithmetic: the
    visible time domain comes back as it was. *)
Lemma sync_then_setBrush_exact
    (s : LineChart.State) (D0 D1 d0 d1 : Z) :
  time_domain (LineChart.data s) = Some (D0, D1) ->
  (D0 < D1)%Z ->
  0 < plotWidth s ->
  visible_domain s = Some (d0, d1) ->
  (d0 < d1)%Z ->
  exists s1,
    LineChart.syncZoomWithBrush s = Some s1 /\
    visible_domain
      (LineChart.setBrush (LineChart.bx0 s1) (LineChart.bx1 s1) s1)
    = Some (d0, d1).
Proof.
  intros Hdom HD Hw Hvis Hd.
  set (base := D3.mkScale (D0, D1)
                 (left LineChart.margin,
                  LineChart.width s - right LineChart.margin)).
  assert (Hbase : LineChart.baseXScaleOf s = Some base).
  { unfold LineChart.baseXScaleOf, LineChart.baseXScale.
    unfold time_domain in Hdom. rewrite Hdom. reflexivity. }
  unfold visible_domain in Hvis.
  destruct (LineChart.xScaleOf s) as [xs|] eqn:Hxs; [|discriminate].
  cbn [option_map] in Hvis. injection Hvis as Hxd.
  unfold LineChart.syncZoomWithBrush. rewrite Hxs, Hbase, Hxd.
  eexists. split; [reflexivity|].
  cbn [LineChart.set_brush LineChart.bx0 LineChart.bx1].
  set (nx0 := D3.apply base d0). set (nx1 := D3.apply base d1).
  set (s1 := LineChart.set_brush nx0 nx1 s).
  assert (Hbase1 : LineChart.baseXScaleOf s1 = Some base) by exact Hbase.
  assert (Hr : fst (D3.range base) < snd (D3.range base)).
  { cbn [base D3.range fst snd]. unfold plotWidth in Hw. lra. }
  assert (Hnx : nx0 < nx1) by (apply apply_increasing; assumption).
  assert (Hne : ~ nx0 == nx1) by lra.
  assert (Hpw : ~ plotWidth s1 == 0).
  { unfold plotWidth. cbn [s1 LineChart.set_brush LineChart.width].
    unfold plotWidth in Hw. lra. }
  destruct (xScaleOf_setBrush s1 nx0 nx1 base Hbase1 Hne Hpw) as [_ Hxs1].
  unfold visible_domain. rewrite Hxs1. cbn [option_map D3.domain].
  rewrite (invert_comp base _ nx0 (Qmin_l_lt _ _ Hnx)).
  rewrite (invert_comp base _ nx1 (Qmax_r_lt _ _ Hnx)).
  rewrite (invert_apply base d0 nx0 HD Hr (Qeq_refl _)).
  rewrite (invert_apply base d1 nx1 HD Hr (Qeq_refl _)).
  reflexivity.
Qed.

(** X15.  From the zoom to the selection and back: over a dataset whose
    dates lie within [10^13] milliseconds of the epoch, in a host at least
    80 pixels wide, when the visible time domain [[d0, d1]] has [d0 < d1]
    and lies inside the time domain of the dataset, feeding the selection
    that [syncZoomWithBrush] computes back to [setBrush] leaves a visible
    time domain whose ends are [d0] and [d1] to the millisecond. *)
Theorem sync_then_setBrush_keeps_domain
    (s : LineChart.State) (D0 D1 d0 d1 : Z) :
  time_domain (LineChart.data s) = Some (D0, D1) ->
  (- date_bound <= D0)%Z -> (D1 <= date_bound)%Z ->
  80 <= LineChart.width s ->
  visible_domain s = Some (d0, d1) ->
  (D0 <= d0)%Z -> (d0 < d1)%Z -> (d1 <= D1)%Z ->
  exists s1 e0 e1,
    LineChart.syncZoomWithBrush s = Some s1 /\
    visible_domain
      (LineChart.setBrush (LineChart.bx0 s1) (LineChart.bx1 s1) s1)
    = Some (e0, e1) /\
    within_one_ms e0 d0 /\ within_one_ms e1 d1.
Proof.
  intros Hdom _ _ Hw Hvis H0 Hd H1.
  assert (HD : (D0 < D1)%Z) by lia.
  assert (Hpw : 0 < plotWidth s) by (unfold plotWidth; cbn; lra).
  destruct (sync_then_setBrush_exact s D0 D1 d0 d1 Hdom HD Hpw Hvis Hd)
    as [s1 [Hs Hv]].
  exists s1, d0, d1.
  split; [exact Hs|]. split; [exact Hv|].
  split; unfold within_one_ms; lia.
Qed.

Lemma sync_then_setBrush_keeps_domain_witness :
  exists s1 e0 e1,
    LineChart.syncZoomWithBrush
      (LineChart.onZoom (D3.Transform.mk 3 (-64) 0)
         (Examples.at_rest Examples.two_days 928 564)) = Some s1 /\
    visible_domain
      (LineChart.setBrush (LineChart.bx0 s1) (LineChart.bx1 s1) s1)
    = Some (e0, e1) /\
    within_one_ms e0 0 /\ within_one_ms e1 28800000.
Proof.
  apply (sync_then_setBrush_keeps_domain
           (LineChart.onZoom (D3.Transform.mk 3 (-64) 0)
              (Examples.at_rest Examples.two_days 928 564))
           0 Examples.day 0 28800000).
  - reflexivity.
  - vm_compute. discriminate.
  - vm_compute. discriminate.
  - vm_compute. discriminate.
  - reflexivity.
  - vm_compute. discriminate.
  - reflexivity.
  - vm_compute. discriminate.
Defined.

(** ** Runs of pointer moves *)

Lemma setBrush_width (s : LineChart.State) (x0 x1 : Q) :
  LineChart.width (LineChart.setBrush x0 x1 s) = LineChart.width s.
Proof.
  unfold LineChart.setBrush.
  destruct (Qeq_bool (Qabs (x1 - x0)) 0); reflexivity.
Qed.

Ltac selection_of_setBrush s :=
  match goal with
  | |- context [LineChart.setBrush ?a ?b s] =>
      destruct (setBrush_selection s a b) as [?A0 ?A1];
      pose proof (setBrush_width s a b) as ?Aw
  end.

(** X18.  Every selection that [onMove] publishes while a drag is active
    is ordered, in every mode and from every state, with no condition on
    the drag or the selection before it. *)
Theorem onMove_publishes_ordered
    (cx : Q) (d : LineChart.Drag) (s : LineChart.State) (m : LineChart.Mode.t) :
  LineChart.mode d = Some m ->
  LineChart.bx0 (snd (LineChart.onMove cx d s))
  <= LineChart.bx1 (snd (LineChart.onMove cx d s)).
Proof.
  intros Hm. unfold LineChart.onMove. rewrite Hm.
  destruct m;
    repeat match goal with
           | |- context [Qltb ?a ?b] =>
               let E := fresh "E" in case_Qltb a b E
           end;
    cbn [fst snd]; selection_of_setBrush s; rewrite A0, A1; lra.
Qed.

Lemma onMove_publishes_ordered_witness :
  let s := LineChart.set_brush 500 100
             (Examples.at_rest Examples.two_days 928 564) in
  let d := LineChart.mkDrag (Some LineChart.Mode.move) 0 (-400) in
  LineChart.bx0 (snd (LineChart.onMove 600 d s))
  <= LineChart.bx1 (snd (LineChart.onMove 600 d s)).
Proof.
  apply (onMove_publishes_ordered 600
           (LineChart.mkDrag (Some LineChart.Mode.move) 0 (-400))
           (LineChart.set_brush 500 100
              (Examples.at_rest Examples.two_days 928 564))
           LineChart.Mode.move).
  reflexivity.
Defined.

(** X20.  After the pointer is released no run of pointer moves changes
    the state or the drag session. *)
Theorem moves_after_mouseup_change_nothing
    (cxs : list Q) (d : LineChart.Drag) (s : LineChart.State) :
  LineChart.onMoves cxs (LineChart.onUp d) s = (LineChart.onUp d, s).
Proof.
  induction cxs as [|cx rest IH]; [reflexivity|].
  cbn [LineChart.onMoves]. exact IH.
Qed.

(** ** Resizing, further *)

Lemma bimap_within_increasing (d0 d1 r0 r1 x : Q) :
  d0 <= d1 -> d0 <= x -> x <= d1 -> r0 <= r1 ->
  r0 <= D3.bimap d0 d1 r0 r1 x /\ D3.bimap d0 d1 r0 r1 x <= r1.
Proof.
  intros Hd Hlo Hhi Hr.
  destruct (Qlt_le_dec d0 d1) as [Hlt|Hge].
  - apply (bimap_between _ _ _ _ _ Hlt Hlo Hhi). exact Hr.
  - unfold D3.bimap. case_Qltb d1 d0 E; [lra|].
    unfold D3.normalize. case_Qeq (d1 - d0) 0 Ez; [|exfalso; apply Ez; lra].
    unfold D3.interpolateNumber. split; lra.
Qed.

(** X21.  After a resize to a width of at least 80 pixels, over a
    dataset whose dates lie within [10^13] milliseconds of the epoch, when
    the captured visible domain [[d0, d1]] has [d0 < d1] and lies inside
    the time domain of the dataset, the selection is in good order for
    the new size: its two edges are inside the new plot bounds, the first
    is left of the second, and the factor of the transform is at least
    1. *)
Theorem resize_leaves_chart_in_order
    (s : LineChart.State) (w h : Q) (D0 D1 d0 d1 : Z) :
  time_domain (LineChart.data s) = Some (D0, D1) ->
  (- date_bound <= D0)%Z -> (D1 <= date_bound)%Z ->
  80 <= w ->
  visible_domain s = Some (d0, d1) ->
  (D0 <= d0)%Z -> (d0 < d1)%Z -> (d1 <= D1)%Z ->
  exists s',
    LineChart.observeHostResize w h s = Some s' /\
    LineChart.width s' = w /\
    inside_plot s' (LineChart.bx0 s') /\ inside_plot s' (LineChart.bx1 s') /\
    LineChart.bx0 s' < LineChart.bx1 s' /\
    1 <= D3.Transform.k (LineChart.zoomTransform s').
Proof.
  intros Hdom _ _ Hw80 Hvis H0 Hd H1.
  assert (Hw : left LineChart.margin + right LineChart.margin < w)
    by (cbn; lra).
  assert (HD : (D0 < D1)%Z) by lia.
  unfold LineChart.observeHostResize, LineChart.resize_callback.
  unfold visible_domain in Hvis. rewrite Hvis.
  set (s1 := LineChart.mkState _ _ _ _ _ _ _ _).
  set (base := D3.mkScale (D0, D1)
                 (left LineChart.margin, w - right LineChart.margin)).
  assert (Hbase : LineChart.baseXScaleOf s1 = Some base).
  { unfold LineChart.baseXScaleOf, LineChart.baseXScale.
    unfold time_domain in Hdom. cbn [s1 LineChart.data LineChart.width].
    rewrite Hdom. reflexivity. }
  unfold LineChart.resize_microtask. rewrite Hbase.
  set (nx0 := D3.apply base d0). set (nx1 := D3.apply base d1).
  assert (Hr : fst (D3.range base) < snd (D3.range base))
    by (cbn [base D3.range fst snd]; lra).
  assert (Hnx : nx0 < nx1) by (apply apply_increasing; assumption).
  assert (Hne : ~ nx0 == nx1) by lra.
  assert (Hw1 : LineChart.width s1 = w) by reflexivity.
  assert (HDq : inject_Z D0 < inject_Z D1) by (rewrite <- Zlt_Qlt; exact HD).
  assert (Hin : forall t, (D0 <= t <= D1)%Z ->
            left LineChart.margin <= D3.apply base t /\
            D3.apply base t <= w - right LineChart.margin).
  { intros t [Ht0 Ht1]. rewrite Zle_Qle in Ht0, Ht1.
    unfold D3.apply. cbn [base D3.domain D3.range fst snd].
    apply (bimap_between _ _ _ _ _ HDq Ht0 Ht1). lra. }
  pose proof (Hin d0 ltac:(lia)) as A0.
  pose proof (Hin d1 ltac:(lia)) as A1.
  fold nx0 in A0. fold nx1 in A1.
  destruct (setBrush_selection s1 nx0 nx1) as [B0 B1].
  pose proof (setBrush_width s1 nx0 nx1) as Bw.
  eexists. split; [reflexivity|].
  split; [rewrite Bw; exact Hw1|].
  unfold inside_plot. rewrite B0, B1, Bw, Hw1.
  split; [exact A0|]. split; [exact A1|]. split; [exact Hnx|].
  apply (setBrush_scale_at_least_one s1 nx0 nx1 Hne);
    unfold inside_plot; rewrite Hw1; assumption.
Qed.

Lemma resize_leaves_chart_in_order_witness :
  exists s',
    LineChart.observeHostResize 400 300
      (Examples.at_rest Examples.two_days 800 564) = Some s' /\
    LineChart.bx0 s' < LineChart.bx1 s'.
Proof.
  destruct (resize_leaves_chart_in_order
              (Examples.at_rest Examples.two_days 800 564) 400 300
              0 Examples.day 0 Examples.day)
    as [s' [Hs [_ [_ [_ [Ho _]]]]]].
  - reflexivity.
  - vm_compute. discriminate.
  - vm_compute. discriminate.
  - vm_compute. discriminate.
  - reflexivity.
  - vm_compute. discriminate.
  - reflexivity.
  - vm_compute. discriminate.
  - exists s'. split; [exact Hs|exact Ho].
Defined.

(** X22.  Over a dataset whose points all share one date (a single point,
    say) a resize leaves the zoom transform as it was and collapses the
    selection onto the middle of the new plot: the base scale sends every
    date there, the deferred [setBrush] sees a selection of width zero. *)
Theorem resize_over_single_date
    (s : LineChart.State) (w h : Q) (D d0 d1 : Z) :
  time_domain (LineChart.data s) = Some (D, D) ->
  visible_domain s = Some (d0, d1) ->
  exists s',
    LineChart.observeHostResize w h s = Some s' /\
    LineChart.zoomTransform s' = LineChart.zoomTransform s /\
    LineChart.bx0 s' == (left LineChart.margin + (w - right LineChart.margin)) / 2 /\
    LineChart.bx1 s' == (left LineChart.margin + (w - right LineChart.margin)) / 2.
Proof.
  intros Hdom Hvis.
  unfold LineChart.observeHostResize, LineChart.resize_callback.
  unfold visible_domain in Hvis. rewrite Hvis.
  set (s1 := LineChart.mkState _ _ _ _ _ _ _ _).
  set (base := D3.mkScale (D, D)
                 (left LineChart.margin, w - right LineChart.margin)).
  assert (Hbase : LineChart.baseXScaleOf s1 = Some base).
  { unfold LineChart.baseXScaleOf, LineChart.baseXScale.
    unfold time_domain in Hdom. cbn [s1 LineChart.data LineChart.width].
    rewrite Hdom. reflexivity. }
  unfold LineChart.resize_microtask. rewrite Hbase.
  assert (Hmid : forall t,
            D3.apply base t
            == (left LineChart.margin + (w - right LineChart.margin)) / 2).
  { intros t. unfold D3.apply, D3.bimap, D3.normalize.
    cbn [base D3.domain D3.range fst snd].
    case_Qltb (inject_Z D) (inject_Z D) E; [lra|].
    case_Qeq (inject_Z D - inject_Z D) 0 Ez; [|exfalso; apply Ez; ring].
    unfold D3.interpolateNumber. field. }
  set (nx0 := D3.apply base d0). set (nx1 := D3.apply base d1).
  assert (E : nx0 == nx1) by (unfold nx0, nx1; rewrite !Hmid; reflexivity).
  assert (Hs : LineChart.setBrush nx0 nx1 s1 = LineChart.set_brush nx0 nx1 s1).
  { unfold LineChart.setBrush.
    case_Qeq (Qabs (nx1 - nx0)) 0 Ez; [reflexivity|].
    exfalso. apply Ez. assert (Hz : nx1 - nx0 == 0) by lra.
    rewrite Hz. reflexivity. }
  eexists. split; [reflexivity|]. rewrite Hs.
  cbn [LineChart.set_brush LineChart.zoomTransform LineChart.bx0 LineChart.bx1 s1].
  split; [reflexivity|]. split; apply Hmid.
Qed.

Lemma resize_over_single_date_witness :
  exists s',
    LineChart.observeHostResize 400 300
      (Examples.at_rest Examples.single_point 928 564) = Some s' /\
    LineChart.bx0 s' == (32 + (400 - 8)) / 2.
Proof.
  destruct (resize_over_single_date
              (Examples.at_rest Examples.single_point 928 564) 400 300
              1704067200000 1704067200000 1704067200000 eq_refl eq_refl)
    as [s' [Hs [_ [Hb _]]]].
  exists s'. split; [exact Hs|exact Hb].
Defined.

(** ** Drawing *)

Lemma stroked_vertices_app (a b : list Canvas2D.cmd) :
  stroked_vertices (a ++ b) = stroked_vertices a ++ stroked_vertices b.
Proof. unfold stroked_vertices. apply flat_map_app. Qed.

Lemma stroked_vertices_flat_map {A : Type}
    (f : A -> list Canvas2D.cmd) (l : list A) :
  (forall a, stroked_vertices (f a) = []) ->
  stroked_vertices (flat_map f l) = [].
Proof.
  intros H. induction l as [|a t IH]; [reflexivity|].
  cbn [flat_map]. rewrite stroked_vertices_app, H, IH. reflexivity.
Qed.

Lemma stroked_vertices_drawGrid
    (xTicks : list Z) (xs : option D3.ScaleTime) (yTicks : list Q)
    (ys : D3.ScaleLinear) (w ch : Q) :
  stroked_vertices (LineChart.drawGrid xTicks xs yTicks ys w ch) = [].
Proof.
  unfold LineChart.drawGrid.
  rewrite !stroked_vertices_app.
  rewrite (stroked_vertices_flat_map _ yTicks) by reflexivity.
  destruct xs as [sc|];
    [rewrite (stroked_vertices_flat_map _ xTicks) by reflexivity|];
    reflexivity.
Qed.

Lemma stroked_vertices_drawAxes
    (fmtDay fmtMY : Z -> string) (getDate : Z -> Z) (toFixed0 : Q -> string)
    (xTicks : list Z) (xs : option D3.ScaleTime) (yTicks : list Q)
    (ys : D3.ScaleLinear) (w ch : Q) :
  stroked_vertices
    (LineChart.drawAxes fmtDay fmtMY getDate toFixed0 xTicks xs yTicks ys w ch)
  = [].
Proof.
  unfold LineChart.drawAxes.
  rewrite !stroked_vertices_app.
  assert (Hy : stroked_vertices
                 (map (fun v => Canvas2D.fillText (toFixed0 v)
                                  (left LineChart.margin - 8)
                                  (D3.applyLinear ys v)) yTicks) = []).
  { induction yTicks as [|v t IH]; [reflexivity|exact IH]. }
  rewrite Hy.
  destruct xs as [sc|]; [|reflexivity].
  rewrite (stroked_vertices_flat_map _ xTicks); [reflexivity|].
  intros t. cbn zeta. destruct (getDate t =? 1)%Z; reflexivity.
Qed.

(** The coordinates of a path: at least an integer bound below them, at
    most an integer bound above them, and above any other bound by less
    than the resolution of the path. *)
Lemma pathRound_lower (n : Z) (v : Q) :
  inject_Z n <= v -> inject_Z n <= D3.pathRound v.
Proof.
  intros H. unfold D3.pathRound, Math_round.
  apply Qle_shift_div_l; [reflexivity|].
  assert (E : inject_Z n * 1000 == inject_Z (n * 1000))
    by (rewrite inject_Z_mult; reflexivity).
  rewrite E, <- Zle_Qle.
  rewrite <- (Qfloor_Z (n * 1000)).
  apply Qfloor_resp_le. rewrite <- E. lra.
Qed.

Lemma pathRound_upper_int (n : Z) (v : Q) :
  v <= inject_Z n -> D3.pathRound v <= inject_Z n.
Proof.
  intros H. unfold D3.pathRound, Math_round.
  apply Qle_shift_div_r; [reflexivity|].
  assert (E : inject_Z n * 1000 == inject_Z (n * 1000))
    by (rewrite inject_Z_mult; reflexivity).
  rewrite E, <- Zle_Qle.
  pose proof (Qfloor_le (v * 1000 + (1 # 2))) as Hf.
  assert (Hlt : inject_Z (Qfloor (v * 1000 + (1 # 2)))
                < inject_Z (n * 1000 + 1)).
  { rewrite inject_Z_plus, <- E. change (inject_Z 1) with 1. lra. }
  rewrite <- Zlt_Qlt in Hlt. lia.
Qed.

Lemma pathRound_upper (b v : Q) :
  v <= b -> D3.pathRound v <= b + path_slack.
Proof.
  intros H. unfold D3.pathRound, Math_round, path_slack.
  pose proof (Qfloor_le (v * 1000 + (1 # 2))) as Hf.
  apply Qle_shift_div_r; [reflexivity|]. lra.
Qed.

Lemma stroked_vertices_drawDataLine
    (xs : option D3.ScaleTime) (ys : D3.ScaleLinear)
    (visible : list LineChartDataItem) :
  stroked_vertices (LineChart.drawDataLine xs ys visible) =
  match xs with
  | Some sc =>
      map (fun d => (D3.pathRound (D3.apply sc (date d)),
                     D3.pathRound (D3.applyLinear ys (value d)))) visible
  | None => []
  end.
Proof.
  unfold LineChart.drawDataLine.
  destruct xs as [sc|]; [|reflexivity].
  destruct visible as [|d t]; [reflexivity|].
  cbn [D3.line stroked_vertices flat_map]. rewrite app_nil_r. reflexivity.
Qed.

Lemma xScaleOf_range (s : LineChart.State) (xs : D3.ScaleTime) :
  LineChart.xScaleOf s = Some xs ->
  D3.range xs =
    (left LineChart.margin, LineChart.width s - right LineChart.margin).
Proof.
  unfold LineChart.xScaleOf, LineChart.xScale.
  destruct (LineChart.baseXScaleOf s) as [base|] eqn:Hb; [|discriminate].
  unfold D3.Transform.rescaleX.
  destruct (Qeq_bool (D3.Transform.k (LineChart.zoomTransform s)) 0);
    [discriminate|].
  intros H. injection H as <-. cbn [D3.range].
  apply (baseXScaleOf_range s base Hb).
Qed.

(** X23.  Over a dataset sorted by date with values up to [2^52] in
    magnitude, in a host of up to a million pixels each way that leaves
    room for the margins, the data line stroked by [drawChart] has one
    vertex for each visible point, in order, and every vertex lies in the
    plot rectangle up to the resolution of the path: never left of the
    plot or above it, and right of it or below it by less than a
    thousandth of a pixel. *)
Theorem data_line_inside_plot
    (fmtDay fmtMY : Z -> string) (getDate : Z -> Z) (toFixed0 : Q -> string)
    (xTicks : list Z) (s : LineChart.State) :
  ascending date (LineChart.data s) ->
  values_bounded (LineChart.data s) ->
  left LineChart.margin + right LineChart.margin <= LineChart.width s ->
  LineChart.width s <= pixel_bound ->
  top LineChart.margin + bottom LineChart.margin
    <= LineChart.chartHeight (LineChart.heightHost s) ->
  LineChart.heightHost s <= pixel_bound ->
  let drawn := stroked_vertices
                 (LineChart.drawChart fmtDay fmtMY getDate toFixed0
                    true xTicks s) in
  length drawn = length (LineChart.visibleDataOf s) /\
  (forall p, In p drawn ->
     vertex_in_plot (LineChart.width s)
                    (LineChart.chartHeight (LineChart.heightHost s)) p).
Proof.
  intros Hs _ Hw _ Hh _ drawn.
  assert (Hdrawn : drawn =
            stroked_vertices
              (LineChart.drawDataLine (LineChart.xScaleOf s)
                 (LineChart.yScaleOf s) (LineChart.visibleDataOf s))).
  { unfold drawn, LineChart.drawChart. cbn [negb].
    change (?c :: ?a ++ ?b) with ([c] ++ a ++ b).
    rewrite !stroked_vertices_app.
    rewrite stroked_vertices_drawGrid, stroked_vertices_drawAxes.
    reflexivity. }
  rewrite Hdrawn, stroked_vertices_drawDataLine.
  destruct (LineChart.xScaleOf s) as [xs|] eqn:Hxs.
  - split; [apply length_map|].
    intros p Hin. apply in_map_iff in Hin.
    destruct Hin as [d [Hd Hvis]]. subst p.
    assert (Hx : in_plot_x (LineChart.width s) (D3.apply xs (date d))).
    { (* the date of a visible point is inside the window *)
      assert (Hvis' := Hvis).
      unfold LineChart.visibleDataOf in Hvis'. rewrite Hxs in Hvis'.
      rewrite (visibleData_scan _ _ Hs) in Hvis'.
      unfold linear_scan in Hvis'. apply filter_In in Hvis'.
      destruct Hvis' as [_ Hwin]. unfold in_window in Hwin.
      apply andb_true_iff in Hwin. destruct Hwin as [H0 H1].
      apply Z.leb_le in H0. apply Z.ltb_lt in H1.
      assert (Hdq : inject_Z (fst (D3.domain xs)) < inject_Z (snd (D3.domain xs)))
        by (rewrite <- Zlt_Qlt; lia).
      assert (H1' : (date d <= snd (D3.domain xs))%Z) by lia.
      rewrite Zle_Qle in H0, H1'.
      unfold in_plot_x, D3.apply. rewrite (xScaleOf_range s xs Hxs).
      cbn [fst snd].
      apply (bimap_between _ _ _ _ _ Hdq H0 H1'). lra. }
    assert (Hy : in_plot_y (LineChart.chartHeight (LineChart.heightHost s))
                   (D3.applyLinear (LineChart.yScaleOf s) (value d))).
    { destruct (visibleExtentY_facts (LineChart.visibleDataOf s)) as [Hlt Hall].
      destruct (Hall d Hvis) as [Hlo Hhi].
      exact (proj2 (proj2 (yScale_facts _ _ (value d) Hlt Hh)) Hlo Hhi). }
    destruct Hx as [X0 X1]. destruct Hy as [Y0 Y1].
    unfold vertex_in_plot. cbn [fst snd].
    split; [apply (pathRound_lower 32), X0|].
    split; [apply pathRound_upper, X1|].
    split; [apply (pathRound_lower 8), Y0|].
    apply pathRound_upper, Y1.
  - assert (Hv : LineChart.visibleDataOf s = []).
    { unfold LineChart.visibleDataOf. rewrite Hxs.
      apply visibleData_none. }
    rewrite Hv. split; [reflexivity|intros p []].
Qed.

Lemma data_line_inside_plot_witness :
  length
    (stroked_vertices
       (LineChart.drawChart (fun _ => EmptyString) (fun _ => EmptyString)
          (fun _ => 1%Z) (fun _ => EmptyString) true []
          (Examples.at_rest Examples.two_days 928 564)))
  = length
      (LineChart.visibleDataOf (Examples.at_rest Examples.two_days 928 564)).
Proof.
  refine (proj1 (data_line_inside_plot
                   (fun _ => EmptyString) (fun _ => EmptyString)
                   (fun _ => 1%Z) (fun _ => EmptyString) []
                   (Examples.at_rest Examples.two_days 928 564) _ _ _ _ _ _)).
  - exact two_days_ascending.
  - exact two_days_values_bounded.
  - vm_compute. discriminate.
  - vm_compute. discriminate.
  - vm_compute. discriminate.
  - vm_compute. discriminate.
Defined.

Lemma ascending_single_date (data : list LineChartDataItem) (D : Z) :
  (forall d, In d data -> date d = D) -> ascending date data.
Proof.
  unfold ascending.
  induction data as [|h t IH]; intros H; cbn [map]; [constructor|].
  constructor.
  - apply IH. intros d Hd. apply H. right. exact Hd.
  - destruct t as [|h' t']; cbn [map]; constructor.
    rewrite (H h (or_introl eq_refl)), (H h' (or_intror (or_introl eq_refl))).
    apply Z.le_refl.
Qed.

(** X24.  Over a dataset whose points all share one date (a single point,
    say), at identity zoom in a host whose plot width is not zero, the
    visible slice is empty, the visible value domain is the default
    [[0, 1]] and [drawChart] strokes no data line at all. *)
Theorem single_date_dataset_shows_nothing
    (fmtDay fmtMY : Z -> string) (getDate : Z -> Z) (toFixed0 : Q -> string)
    (xTicks : list Z) (s : LineChart.State) (D : Z) :
  time_domain (LineChart.data s) = Some (D, D) ->
  LineChart.zoomTransform s = D3.zoomIdentity ->
  ~ plotWidth s == 0 ->
  LineChart.visibleDataOf s = [] /\
  LineChart.visibleExtentYOf s = (0, 1) /\
  stroked_vertices
    (LineChart.drawChart fmtDay fmtMY getDate toFixed0 true xTicks s) = [].
Proof.
  intros Hdom Hz Hw.
  destruct (time_domain_spec _ _ _ Hdom) as [_ [_ Hall]].
  assert (Hs : ascending date (LineChart.data s)).
  { apply (ascending_single_date _ D). intros d Hd.
    specialize (Hall d Hd). lia. }
  assert (Hvis : LineChart.visibleDataOf s = []).
  { unfold LineChart.visibleDataOf.
    rewrite (xScaleOf_identity s Hz Hw).
    unfold LineChart.baseXScaleOf, LineChart.baseXScale.
    pose proof Hdom as Hdom'. unfold time_domain in Hdom'. rewrite Hdom'.
    rewrite (visibleData_scan _ _ Hs). cbn [D3.domain fst snd].
    apply filter_none. intros d Hd. unfold in_window.
    specialize (Hall d Hd).
    apply andb_false_intro2, Z.ltb_ge. lia. }
  split; [exact Hvis|].
  split; [unfold LineChart.visibleExtentYOf; rewrite Hvis; reflexivity|].
  unfold LineChart.drawChart. cbn [negb].
  change (?c :: ?a ++ ?b) with ([c] ++ a ++ b).
  rewrite !stroked_vertices_app.
  rewrite stroked_vertices_drawGrid, stroked_vertices_drawAxes.
  rewrite stroked_vertices_drawDataLine, Hvis.
  destruct (LineChart.xScaleOf s); reflexivity.
Qed.

Lemma single_date_dataset_shows_nothing_witness :
  LineChart.visibleExtentYOf (Examples.at_rest Examples.single_point 928 564)
  = (0, 1).
Proof.
  refine (proj1 (proj2 (single_date_dataset_shows_nothing
            (fun _ => EmptyString) (fun _ => EmptyString)
            (fun _ => 1%Z) (fun _ => EmptyString) []
            (Examples.at_rest Examples.single_point 928 564)
            1704067200000 _ _ _))).
  - reflexivity.
  - reflexivity.
  - intros E. vm_compute in E. discriminate E.
Defined.

Lemma stroked_vertices_drawDataZoom
    (bx : option D3.ScaleTime) (ay : option D3.ScaleLinear)
    (data : list LineChartDataItem) (w : Q) :
  stroked_vertices (LineChart.drawDataZoom true bx ay data w) =
  match bx, ay with
  | Some bx, Some ay =>
      map (fun d => (D3.pathRound (D3.apply bx (date d)),
                     D3.pathRound (D3.applyLinear ay (value d)))) data
  | _, _ => []
  end.
Proof.
  unfold LineChart.drawDataZoom. cbn [negb].
  rewrite stroked_vertices_app.
  destruct bx as [bx|], ay as [ay|]; try reflexivity.
  destruct data as [|d t]; [reflexivity|].
  cbn [D3.line stroked_vertices flat_map app]. rewrite app_nil_r. reflexivity.
Qed.

(** X25.  Over values up to [2^52] in magnitude, in a host at least as
    wide as the two horizontal margins and at most a million pixels wide,
    every vertex of the overview line stroked by [drawDataZoom] lies in
    the overview strip: between 0 and the strip's height of 40, not left
    of the plot and right of it by less than a thousandth of a pixel, the
    resolution of the path; there is one vertex for each point of the
    dataset, sorted or not, and nothing is drawn without a context. *)
Theorem overview_line_inside_strip (ctx : bool) (s : LineChart.State) :
  values_bounded (LineChart.data s) ->
  left LineChart.margin + right LineChart.margin <= LineChart.width s ->
  LineChart.width s <= pixel_bound ->
  let drawn := stroked_vertices (LineChart.drawDataZoomOf ctx s) in
  (ctx = true -> length drawn = length (LineChart.data s)) /\
  (ctx = false -> LineChart.drawDataZoomOf ctx s = []) /\
  (forall p, In p drawn -> vertex_in_strip (LineChart.width s) p).
Proof.
  intros _ Hw _ drawn.
  destruct ctx.
  2:{ split; [discriminate|]. split; [reflexivity|intros p []]. }
  unfold drawn, LineChart.drawDataZoomOf.
  rewrite stroked_vertices_drawDataZoom.
  split; [|split; [discriminate|]].
  - intros _.
    destruct (LineChart.data s) as [|d t] eqn:Hdata.
    + unfold LineChart.baseXScaleOf. rewrite Hdata. reflexivity.
    + destruct (time_domain_nonempty d t) as [D0 [D1 Hdom]].
      destruct (allYScale_facts d t) as [ay [Hay _]].
      unfold LineChart.baseXScaleOf, LineChart.baseXScale. rewrite Hdata.
      unfold time_domain in Hdom. rewrite Hdom, Hay. apply length_map.
  - intros p Hin.
    destruct (LineChart.baseXScaleOf s) as [bx|] eqn:Hbx; [|destruct Hin].
    destruct (LineChart.allYScale (LineChart.data s)) as [ay|] eqn:Hay;
      [|destruct Hin].
    apply in_map_iff in Hin. destruct Hin as [e [He Hin]]. subst p.
    destruct (baseXScaleOf_range s bx Hbx) as [Hr Hdom].
    destruct (D3.domain bx) as [D0 D1] eqn:Hd.
    destruct (time_domain_spec _ _ _ Hdom) as [_ [_ Hall]].
    assert (Hx : in_plot_x (LineChart.width s) (D3.apply bx (date e))).
    { destruct (Hall e Hin) as [H0 H1].
      assert (HD : (D0 <= D1)%Z) by lia.
      rewrite Zle_Qle in H0, H1, HD.
      unfold in_plot_x, D3.apply. rewrite Hr, Hd. cbn [fst snd].
      apply bimap_within_increasing; try assumption. lra. }
    assert (Hy : 0 <= D3.applyLinear ay (value e) /\
                 D3.applyLinear ay (value e) <= LineChart.dzHeight).
    { destruct (LineChart.data s) as [|d t] eqn:Hdata; [destruct Hin|].
      destruct (allYScale_facts d t) as [ay' [Hay' [Hstrip _]]].
      rewrite Hay in Hay'. injection Hay' as <-.
      apply Hstrip, Hin. }
    destruct Hx as [X0 X1]. destruct Hy as [Y0 Y1].
    unfold vertex_in_strip. cbn [fst snd].
    split; [apply (pathRound_lower 32), X0|].
    split; [apply pathRound_upper, X1|].
    split; [apply (pathRound_lower 0), Y0|].
    apply (pathRound_upper_int 40), Y1.
Qed.

Lemma overview_line_inside_strip_witness :
  length
    (stroked_vertices
       (LineChart.drawDataZoomOf true
          (Examples.at_rest Examples.two_days 928 564)))
  = 2%nat.
Proof.
  refine (proj1 (overview_line_inside_strip true
                   (Examples.at_rest Examples.two_days 928 564) _ _ _) eq_refl).
  - exact two_days_values_bounded.
  - vm_compute. discriminate.
  - vm_compute. discriminate.
Defined.

Lemma segment_points_app (a b : list Canvas2D.cmd) :
  segment_points (a ++ b) = segment_points a ++ segment_points b.
Proof. unfold segment_points. apply flat_map_app. Qed.

Lemma segment_points_flat_map {A : Type}
    (f : A -> list Canvas2D.cmd) (l : list A) :
  segment_points (flat_map f l) = flat_map (fun a => segment_points (f a)) l.
Proof.
  induction l as [|a t IH]; [reflexivity|].
  cbn [flat_map]. rewrite segment_points_app, IH. reflexivity.
Qed.

(** X26.  Over values up to [2^52] in magnitude, in a host of up to a
    million pixels each way that leaves room for the margins, with time
    ticks that lie in the visible time domain, every end point of the
    grid lines laid by [drawGrid] is between the left and right edges of
    the plot, not below the plot and above it by less than a thousandth
    of a pixel (the line of the last value tick, which rounding can leave
    just above the value domain); there are two end points for each time
    tick, each value tick and the right border. *)
Theorem grid_inside_plot (xTicks : list Z) (s : LineChart.State) :
  values_bounded (LineChart.data s) ->
  left LineChart.margin + right LineChart.margin <= LineChart.width s ->
  LineChart.width s <= pixel_bound ->
  top LineChart.margin + bottom LineChart.margin
    <= LineChart.chartHeight (LineChart.heightHost s) ->
  LineChart.heightHost s <= pixel_bound ->
  (forall xs t, LineChart.xScaleOf s = Some xs -> In t xTicks ->
     (fst (D3.domain xs) <= t <= snd (D3.domain xs))%Z) ->
  let w := LineChart.width s in
  let ch := LineChart.chartHeight (LineChart.heightHost s) in
  let points :=
    segment_points
      (LineChart.drawGrid xTicks (LineChart.xScaleOf s)
         (LineChart.yTicksValuesOf s) (LineChart.yScaleOf s) w ch) in
  (forall p, In p points -> grid_point_in_plot w ch p) /\
  (forall xs, LineChart.xScaleOf s = Some xs ->
     length points =
     (2 * (length xTicks + length (LineChart.yTicksValuesOf s) + 1))%nat).
Proof.
  intros _ Hw _ Hh _ Hticks w ch points.
  assert (Hpoints : points =
            match LineChart.xScaleOf s with
            | Some xs =>
                flat_map (fun t => [(D3.apply xs t, top LineChart.margin);
                                    (D3.apply xs t, ch - bottom LineChart.margin)])
                         xTicks
            | None => []
            end
            ++ flat_map (fun v =>
                           [(left LineChart.margin,
                             D3.applyLinear (LineChart.yScaleOf s) v);
                            (w - right LineChart.margin,
                             D3.applyLinear (LineChart.yScaleOf s) v)])
                        (LineChart.yTicksValuesOf s)
            ++ [(w - right LineChart.margin, top LineChart.margin);
                (w - right LineChart.margin, ch - bottom LineChart.margin)]).
  { unfold points, LineChart.drawGrid.
    rewrite !segment_points_app.
    rewrite (segment_points_flat_map _ (LineChart.yTicksValuesOf s)).
    destruct (LineChart.xScaleOf s) as [xs|];
      [rewrite (segment_points_flat_map _ xTicks)|]; reflexivity. }
  assert (Hx : in_plot_x w (left LineChart.margin) /\
               in_plot_x w (w - right LineChart.margin)).
  { unfold in_plot_x. fold w in Hw. repeat split; lra. }
  assert (Hy : in_plot_y ch (top LineChart.margin) /\
               in_plot_y ch (ch - bottom LineChart.margin)).
  { unfold in_plot_y. fold ch in Hh. repeat split; lra. }
  assert (Hweak : forall x y, in_plot_x w x -> in_plot_y ch y ->
                    grid_point_in_plot w ch (x, y)).
  { intros x y Hx' [Y0 Y1]. unfold grid_point_in_plot, path_slack.
    cbn [fst snd]. split; [exact Hx'|]. split; lra. }
  split.
  - intros [x y] Hin.
    cut (in_plot_x w x /\ in_plot_y ch y);
      [intros [Px Py]; apply Hweak; assumption|].
    rewrite Hpoints in Hin.
    apply in_app_or in Hin. destruct Hin as [Hin|Hin].
    + destruct (LineChart.xScaleOf s) as [xs|] eqn:Hxs; [|destruct Hin].
      apply in_flat_map in Hin. destruct Hin as [t [Ht Hin]].
      destruct (Hticks xs t eq_refl Ht) as [T0 T1].
      assert (TD : (fst (D3.domain xs) <= snd (D3.domain xs))%Z) by lia.
      rewrite Zle_Qle in T0, T1, TD.
      assert (Hxin : in_plot_x w (D3.apply xs t)).
      { unfold in_plot_x, D3.apply. rewrite (xScaleOf_range s xs Hxs).
        cbn [fst snd]. fold w.
        apply bimap_within_increasing; try assumption. fold w in Hw. lra. }
      destruct Hin as [E|[E|[]]]; injection E as <- <-;
        split; try exact Hxin; apply Hy.
    + apply in_app_or in Hin. destruct Hin as [Hin|Hin].
      * apply in_flat_map in Hin. destruct Hin as [v [Hv Hin]].
        assert (Hyin : in_plot_y ch (D3.applyLinear (LineChart.yScaleOf s) v)).
        { unfold LineChart.yTicksValuesOf in Hv.
          destruct (visibleExtentY_facts (LineChart.visibleDataOf s))
            as [Hlt _].
          unfold LineChart.yScaleOf, LineChart.visibleExtentYOf in *.
          destruct (LineChart.visibleExtentY (LineChart.visibleDataOf s))
            as [minY maxY] eqn:Hext.
          cbn [fst snd] in Hlt.
          apply (In_nth _ _ 0) in Hv. destruct Hv as [i [Hi Hv]].
          destruct (yTicksValues_facts minY maxY ch ltac:(lra) i Hi)
            as [V0 V1].
          fold ch in Hv. rewrite Hv in V0, V1.
          exact (proj2 (proj2 (yScale_facts (minY, maxY) ch v Hlt Hh)) V0 V1). }
        destruct Hin as [E|[E|[]]]; injection E as <- <-;
          split; try exact Hyin; apply Hx.
      * destruct Hin as [E|[E|[]]]; injection E as <- <-;
          split; try apply Hx; apply Hy.
  - intros xs Hxs. rewrite Hpoints, Hxs.
    rewrite !length_app.
    assert (L : forall (A : Type) (f : A -> list (Q * Q)) (l : list A),
               (forall a, length (f a) = 2%nat) ->
               length (flat_map f l) = (2 * length l)%nat).
    { intros A f l Hf. induction l as [|a t IH]; [reflexivity|].
      cbn [flat_map]. rewrite length_app, Hf, IH. cbn [length]. lia. }
    rewrite !L by reflexivity. cbn [length]. lia.
Qed.

Lemma grid_inside_plot_witness :
  length
    (segment_points
       (LineChart.drawGrid [0%Z; Examples.day]
          (LineChart.xScaleOf (Examples.at_rest Examples.two_days 928 564))
          (LineChart.yTicksValuesOf
             (Examples.at_rest Examples.two_days 928 564))
          (LineChart.yScaleOf (Examples.at_rest Examples.two_days 928 564))
          928 (LineChart.chartHeight 564)))
  = (2 * (2 + length (LineChart.yTicksValuesOf
                        (Examples.at_rest Examples.two_days 928 564)) + 1))%nat.
Proof.
  refine (proj2 (grid_inside_plot [0%Z; Examples.day]
                   (Examples.at_rest Examples.two_days 928 564) _ _ _ _ _ _)
            (D3.mkScale (0%Z, Examples.day) (32, 928 - 8)) eq_refl).
  - exact two_days_values_bounded.
  - vm_compute. discriminate.
  - vm_compute. discriminate.
  - vm_compute. discriminate.
  - vm_compute. discriminate.
  - intros xs t Hxs Ht. vm_compute in Hxs. injection Hxs as <-.
    cbn [D3.domain fst snd].
    destruct Ht as [<-|[<-|[]]]; vm_compute; split; discriminate.
Defined.

(** ** The fixed-size component *)

(** X27.  The fixed-size chart always has exactly five value ticks,
    whatever the domain: tick [i] is [minY + i * step] with the step
    [(maxY - minY) / 4], and the first is [minY] itself. *)
Theorem fixed_chart_has_five_value_ticks (minY maxY : Q) :
  let ticks := FixedLineChart.yTicksValues (minY, maxY) in
  length ticks = 5%nat /\
  nth 0 ticks 0 == minY /\
  (forall i, (i < 5)%nat ->
     nth i ticks 0 == minY + inject_Z (Z.of_nat i) * ((maxY - minY) / 4)).
Proof.
  cbn zeta.
  assert (E : FixedLineChart.yTicksValues (minY, maxY) =
              map (fun i => minY + inject_Z (Z.of_nat i)
                                   * ((maxY - minY) / inject_Z (5 - 1)))
                  (seq 0 5)) by reflexivity.
  rewrite E. cbn [map seq length nth].
  split; [reflexivity|].
  split; [unfold inject_Z; cbn; field|].
  intros i Hi.
  destruct i as [|[|[|[|[|i]]]]]; try lia; cbn [nth];
    unfold inject_Z; cbn; field.
Qed.
